(** * The HMP command adapter (monitor/hmp-cmds.c): model and properties

    A shallow embedding of the command handlers of the human monitor:
    the error relay, the comma splitter, the [info status] handler, the
    statistics filter builder and renderer, and the virtio printers.

    Conventions of the embedding.
    - A C string is a [string]; a pointer to one that may be NULL is an
      [option string].  A QAPI linked list is a [list]; a cursor into
      such a list is the suffix of the list that starts at the node the
      cursor points to, and the NULL cursor is [[]].
    - C integers are [Z]; the conversions of the [printf] family wrap
      them to the width of the conversion.
    - The monitor's text sink is the sequence of the texts written to
      it, one entry per call of [monitor_printf] or [monitor_puts]. *)

From Stdlib Require Import ZArith String Ascii DecimalString HexadecimalString.
From stdpp Require Import base list strings.

Open Scope string_scope.
Open Scope list_scope.

(** ** Characters and number formatting *)

Definition nl : string := String "010"%char EmptyString.
Definition tab : string := String "009"%char EmptyString.
Definition comma : ascii := ","%char.

Definition dec (z : Z) : string :=
  DecimalString.NilZero.string_of_int (Z.to_int z).

Definition hex (z : Z) : string :=
  HexadecimalString.NilZero.string_of_uint (N.to_hex_uint (Z.to_N z)).

(** Two's complement reading of the low [w] bits of [z], and the
    unsigned reading. *)
Definition sint (w : Z) (z : Z) : Z :=
  ((z + 2 ^ (w - 1)) mod 2 ^ w - 2 ^ (w - 1))%Z.

Definition uint (w : Z) (z : Z) : Z := (z mod 2 ^ w)%Z.

Fixpoint zeros (n : nat) : string :=
  match n with
  | O => EmptyString
  | S k => String "0"%char (zeros k)
  end.

(** Field width with the [0] flag: pad on the left up to [w] characters. *)
Definition zero_pad (w : nat) (s : string) : string :=
  zeros (w - String.length s) +:+ s.

(** [%d] and [%PRId32]. *)
Definition fmt_d (z : Z) : string := dec (sint 32 z).
(** [%PRId64]. *)
Definition fmt_d64 (z : Z) : string := dec (sint 64 z).
(** [%PRIx64]. *)
Definition fmt_x64 (z : Z) : string := hex (uint 64 z).
(** [%016PRIx64] and [%016PRIx32]. *)
Definition fmt_016x64 (z : Z) : string := zero_pad 16 (hex (uint 64 z)).
Definition fmt_016x32 (z : Z) : string := zero_pad 16 (hex (uint 32 z)).

(** ** The text sink *)

Definition Monitor : Type := list string.

Definition monitor_printf (mon : Monitor) (text : string) : Monitor :=
  mon ++ [text].

Definition monitor_puts (mon : Monitor) (text : string) : Monitor :=
  mon ++ [text].

(** What the operator reads: the writes, one after the other. *)
Definition monitor_text (mon : Monitor) : string :=
  String.concat EmptyString mon.

(** ** Error descriptors and the state the handlers act on *)

Record Error : Type := { error_get_pretty : string }.

(** The state a command handler runs in: the text sink, and the error
    descriptors released so far (oldest first). *)
Record World : Type := {
  sink : Monitor;
  released : list Error
}.

Definition world0 : World := {| sink := []; released := [] |}.

Definition with_sink (f : Monitor -> Monitor) (w : World) : World :=
  {| sink := f (sink w); released := released w |}.

Definition say (text : string) (w : World) : World :=
  with_sink (fun mon => monitor_printf mon text) w.

Definition error_free (err : option Error) (w : World) : World :=
  match err with
  | Some e => {| sink := sink w; released := released w ++ [e] |}
  | None => w
  end.

(** Modelled from the spec: [error_reportf_err] (util/error.c) is not
    part of the sources at hand.  It writes one line, the prefix
    followed by the pretty description of the error, to the text sink
    and releases the descriptor. *)
Definition error_reportf_err (e : Error) (prefix : string) (w : World) : World :=
  error_free (Some e) (say (prefix +:+ error_get_pretty e +:+ nl) w).

Definition hmp_handle_error (err : option Error) (w : World) : bool * World :=
  match err with
  | Some e => (true, error_reportf_err e "Error: " w)
  | None => (false, w)
  end.

(** ** The comma splitter *)

(** [g_strsplit (str, ",", -1)] of GLib, for a delimiter of one
    character and no limit on the number of pieces: the empty string
    gives the empty vector, any other string gives one piece more than
    it has delimiters. *)
Fixpoint pieces (delim : ascii) (s : string) : list string :=
  match s with
  | EmptyString => [EmptyString]
  | String c rest =>
    if Ascii.eqb c delim then EmptyString :: pieces delim rest
    else match pieces delim rest with
         | p :: ps => String c p :: ps
         | [] => [String c EmptyString]
         end
  end.

Definition g_strsplit (s : string) (delim : ascii) : list string :=
  match s with
  | EmptyString => []
  | _ => pieces delim s
  end.

(** The loop [for (i = 0; split[i]; i++) QAPI_LIST_APPEND(tail, split[i])]. *)
Fixpoint append_all (split : list string) (res : list string) : list string :=
  match split with
  | [] => res
  | s :: rest => append_all rest (res ++ [s])
  end.

Definition hmp_split_at_comma (str : option string) : list string :=
  let split := g_strsplit (default EmptyString str) comma in
  append_all split [].

(** Comma-join, the operation the splitter undoes. *)
Definition comma_join (xs : list string) : string :=
  String.concat "," xs.

Fixpoint comma_free (s : string) : bool :=
  match s with
  | EmptyString => true
  | String c rest => negb (Ascii.eqb c comma) && comma_free rest
  end.

Definition nonempty (s : string) : bool :=
  match s with
  | EmptyString => false
  | String _ _ => true
  end.

(** ** Enumerations of the management API

    Modelled from the spec: the enumerations below are generated from
    the QAPI schema and are not part of the sources at hand; their
    members are the ones the handlers and the spec name.  A [_MAX]
    member is the sentinel that closes each C enumeration.  The name
    tables ([RunState_str] and the like) stay parameters. *)

Inductive RunState : Type :=
  | RUN_STATE_DEBUG | RUN_STATE_INMIGRATE | RUN_STATE_INTERNAL_ERROR
  | RUN_STATE_IO_ERROR | RUN_STATE_PAUSED | RUN_STATE_POSTMIGRATE
  | RUN_STATE_PRELAUNCH | RUN_STATE_FINISH_MIGRATE | RUN_STATE_RESTORE_VM
  | RUN_STATE_RUNNING | RUN_STATE_SAVE_VM | RUN_STATE_SHUTDOWN
  | RUN_STATE_SUSPENDED | RUN_STATE_WATCHDOG | RUN_STATE_GUEST_PANICKED
  | RUN_STATE_COLO | RUN_STATE__MAX.

Inductive StatsTarget : Type :=
  | STATS_TARGET_VM | STATS_TARGET_VCPU | STATS_TARGET__MAX.

Inductive StatsType : Type :=
  | STATS_TYPE_CUMULATIVE | STATS_TYPE_INSTANT | STATS_TYPE_PEAK
  | STATS_TYPE_LINEAR_HISTOGRAM | STATS_TYPE_LOG2_HISTOGRAM.

Inductive StatsUnit : Type :=
  | STATS_UNIT_BYTES | STATS_UNIT_SECONDS | STATS_UNIT_CYCLES
  | STATS_UNIT_BOOLEAN.

Inductive TpmType : Type :=
  | TPM_TYPE_PASSTHROUGH | TPM_TYPE_EMULATOR | TPM_TYPE__MAX.

(** The providers are the values [0 .. STATS_PROVIDER__MAX - 1] of a C
    enumeration; [STATS_PROVIDER__MAX] itself, a parameter of the
    development, is what the handlers pass for "no provider chosen". *)
Definition StatsProvider : Type := nat.
Definition TpmModel : Type := nat.

#[global] Instance RunState_eq_dec : EqDecision RunState.
Proof. solve_decision. Defined.
#[global] Instance StatsTarget_eq_dec : EqDecision StatsTarget.
Proof. solve_decision. Defined.
#[global] Instance StatsType_eq_dec : EqDecision StatsType.
Proof. solve_decision. Defined.
#[global] Instance StatsUnit_eq_dec : EqDecision StatsUnit.
Proof. solve_decision. Defined.

(** ** Records of the management API *)

Record StatusInfo : Type := {
  running : bool;
  singlestep : bool;
  status : RunState
}.

Record StatsSchemaValue : Type := {
  ssv_name : string;
  ssv_type : StatsType;
  has_unit : bool;
  ssv_unit : StatsUnit;
  base : Z;
  exponent : Z;
  has_bucket_size : bool;
  bucket_size : Z
}.

Record StatsSchema : Type := {
  schema_provider : StatsProvider;
  schema_target : StatsTarget;
  schema_stats : list StatsSchemaValue
}.

(** The alternate [StatsValue]: its [type] tag is a [QType], of which
    the renderer knows three. *)
Inductive StatsValue : Type :=
  | QTYPE_QNUM (scalar : Z)
  | QTYPE_QBOOL (boolean : bool)
  | QTYPE_QLIST (l : list Z)
  | QTYPE_other.

Record Stats : Type := {
  stats_name : string;
  stats_value : StatsValue
}.

Record StatsResult : Type := {
  result_provider : StatsProvider;
  result_stats : list Stats
}.

Record StatsRequest : Type := {
  request_provider : StatsProvider;
  has_names : bool;
  request_names : list string
}.

Record StatsFilter : Type := {
  filter_target : StatsTarget;
  has_vcpus : bool;
  vcpus : list (option string);
  has_providers : bool;
  providers : list StatsRequest
}.

Record CPUState : Type := {
  cpu_index : Z;
  canonical_path : string
}.

(** A reply of a MAPI entry point that takes an [Error **]: either the
    value, or the error descriptor it has set. *)
Inductive reply (A : Type) : Type :=
  | Ok (a : A)
  | Fail (err : Error).
Arguments Ok {A} a.
Arguments Fail {A} err.

(** ** info status *)

Section InfoStatus.
Variable RunState_str : RunState -> string.

Definition hmp_info_status (info : StatusInfo) (mon : Monitor) : Monitor :=
  let mon := monitor_printf mon
    ("VM status: " +:+ (if running info then "running" else "paused")
     +:+ (if singlestep info then " (single step mode)" else EmptyString)) in
  let mon :=
    if negb (running info) && negb (bool_decide (status info = RUN_STATE_PAUSED))
    then monitor_printf mon (" (" +:+ RunState_str (status info) +:+ ")")
    else mon in
  monitor_printf mon nl.
End InfoStatus.

(** Modelled from the spec: the name table of [RunState] is generated
    from the QAPI schema and is not part of the sources; these are the
    schema's spellings, of which the spec quotes "guest-panicked".  The
    sentinel has no name of its own. *)
Definition RunState_qapi_name (s : RunState) : string :=
  match s with
  | RUN_STATE_DEBUG => "debug" | RUN_STATE_INMIGRATE => "inmigrate"
  | RUN_STATE_INTERNAL_ERROR => "internal-error"
  | RUN_STATE_IO_ERROR => "io-error" | RUN_STATE_PAUSED => "paused"
  | RUN_STATE_POSTMIGRATE => "postmigrate"
  | RUN_STATE_PRELAUNCH => "prelaunch"
  | RUN_STATE_FINISH_MIGRATE => "finish-migrate"
  | RUN_STATE_RESTORE_VM => "restore-vm" | RUN_STATE_RUNNING => "running"
  | RUN_STATE_SAVE_VM => "save-vm" | RUN_STATE_SHUTDOWN => "shutdown"
  | RUN_STATE_SUSPENDED => "suspended" | RUN_STATE_WATCHDOG => "watchdog"
  | RUN_STATE_GUEST_PANICKED => "guest-panicked" | RUN_STATE_COLO => "colo"
  | RUN_STATE__MAX => EmptyString
  end.

(** ** The statistics renderer *)

Section StatsRenderer.
(** Name tables generated from the QAPI schema, and the prefix tables
    of util/cutils.c: none of them is part of the sources at hand. *)
Variable StatsType_str : StatsType -> string.
Variable StatsUnit_str : StatsUnit -> string.
Variable StatsProvider_str : StatsProvider -> string.
Variable si_prefix : Z -> string.
Variable iec_binary_prefix : Z -> string.

(** The unit letter chosen by the first [if] of the formatter; [None]
    is the NULL the variable [unit] starts with. *)
Definition unit_letter (value : StatsSchemaValue) : option string :=
  if has_unit value then
    if bool_decide (ssv_unit value = STATS_UNIT_SECONDS) then Some "s"
    else if bool_decide (ssv_unit value = STATS_UNIT_BYTES) then Some "B"
    else None
  else None.

(** [base == 10 && exponent >= -18 && exponent <= 18 && exponent % 3 == 0];
    [%] of C truncates towards zero, as [Z.rem] does. *)
Definition si_exponent (value : StatsSchemaValue) : bool :=
  (base value =? 10)%Z && (-18 <=? exponent value)%Z
  && (exponent value <=? 18)%Z && (Z.rem (exponent value) 3 =? 0)%Z.

(** [base == 2 && exponent >= 0 && exponent <= 60 && exponent % 10 == 0]. *)
Definition iec_exponent (value : StatsSchemaValue) : bool :=
  (base value =? 2)%Z && (0 <=? exponent value)%Z
  && (exponent value <=? 60)%Z && (Z.rem (exponent value) 10 =? 0)%Z.

(** The first write of the formatter: name, type and separator. *)
Definition schema_value_head (value : StatsSchemaValue) : string :=
  "    " +:+ ssv_name value +:+ " (" +:+ StatsType_str (ssv_type value)
  +:+ (if has_unit value || negb (exponent value =? 0)%Z
       then ", " else EmptyString).

Definition print_stats_schema_value (mon : Monitor) (value : StatsSchemaValue)
  : Monitor :=
  let unit := unit_letter value in
  let mon := monitor_printf mon (schema_value_head value) in
  let '(mon, unit) :=
    if bool_decide (is_Some unit) && si_exponent value then
      (monitor_puts mon (si_prefix (exponent value)), unit)
    else if bool_decide (is_Some unit) && iec_exponent value then
      (monitor_puts mon (iec_binary_prefix (exponent value)), unit)
    else if negb (exponent value =? 0)%Z then
      (monitor_printf mon
         ("* " +:+ fmt_d (base value) +:+ "^" +:+ fmt_d (exponent value)
          +:+ (if has_unit value then " " else EmptyString)),
       None)
    else (mon, unit) in
  let mon :=
    if has_unit value then
      monitor_puts mon (default (StatsUnit_str (ssv_unit value)) unit)
    else mon in
  let mon :=
    if bool_decide (ssv_type value = STATS_TYPE_LINEAR_HISTOGRAM)
       && has_bucket_size value
    then monitor_printf mon (", bucket size=" +:+ fmt_d (bucket_size value))
    else mon in
  monitor_printf mon ")".

Fixpoint find_schema_value_list (schema : list StatsSchema)
    (provider : StatsProvider) (target : StatsTarget)
  : list StatsSchemaValue :=
  match schema with
  | [] => []
  | node :: next =>
    if (schema_provider node =? provider)%nat
       && bool_decide (schema_target node = target)
    then schema_stats node
    else find_schema_value_list next provider target
  end.

(** The inner [while] of the renderer.  The schema cursor points to
    [schema_value :: next]; the loop leaves it at the first entry from
    there on that bears the name, and gives up when it would step
    past the last node. *)
Fixpoint find_schema_entry (name : string) (schema_value : StatsSchemaValue)
    (next : list StatsSchemaValue)
  : option (StatsSchemaValue * list StatsSchemaValue) :=
  if String.eqb name (ssv_name schema_value) then Some (schema_value, next)
  else match next with
       | [] => None
       | schema_value' :: next' => find_schema_entry name schema_value' next'
       end.

(** [for (list = ..., i = 1; list; list = list->next, i++)]. *)
Fixpoint print_stats_list (mon : Monitor) (l : list Z) (i : Z) : Monitor :=
  match l with
  | [] => mon
  | value :: next =>
    print_stats_list
      (monitor_printf mon ("[" +:+ fmt_d i +:+ "]=" +:+ fmt_d64 value +:+ " "))
      next (i + 1)%Z
  end.

(** The chain of [if]s on [stats_value->type]. *)
Definition print_stats_value (mon : Monitor) (stats_value : StatsValue)
  : Monitor :=
  match stats_value with
  | QTYPE_QNUM scalar => monitor_printf mon (": " +:+ fmt_d64 scalar +:+ nl)
  | QTYPE_QBOOL boolean =>
    monitor_printf mon (": " +:+ (if boolean then "yes" else "no") +:+ nl)
  | QTYPE_QLIST l =>
    let mon := monitor_printf mon ": " in
    let mon := print_stats_list mon l 1 in
    monitor_printf mon nl
  | QTYPE_other => mon
  end.

(** How a call of the renderer ends. *)
Inductive Exit : Type :=
  | Rendered          (* the loop ran to the end of the stats list *)
  | NoSchemaList      (* "failed to find schema list for ..." *)
  | NoSchemaEntry     (* "failed to find schema entry for ..." *)
  | NullCursor.       (* [schema_value_list->value] on a NULL cursor *)

(** One round of the [for] loop, its increment
    [schema_value_list = schema_value_list->next] included. *)
Inductive Round : Type :=
  | Next (mon : Monitor) (schema_value_list : list StatsSchemaValue)
  | Return (mon : Monitor) (e : Exit).

Definition loop_body (mon : Monitor) (stats : Stats)
    (schema_value_list : list StatsSchemaValue) : Round :=
  match schema_value_list with
  | [] => Return mon NullCursor
  | schema_value :: next =>
    match find_schema_entry (stats_name stats) schema_value next with
    | None =>
      Return (monitor_printf mon
                ("failed to find schema entry for " +:+ stats_name stats +:+ nl))
             NoSchemaEntry
    | Some (schema_value, next) =>
      let mon := print_stats_schema_value mon schema_value in
      let mon := print_stats_value mon (stats_value stats) in
      Next mon next
    end
  end.

Fixpoint for_loop (mon : Monitor) (stats_list : list Stats)
    (schema_value_list : list StatsSchemaValue) : Monitor * Exit :=
  match stats_list with
  | [] => (mon, Rendered)
  | stats :: stats_next =>
    match loop_body mon stats schema_value_list with
    | Next mon schema_value_list => for_loop mon stats_next schema_value_list
    | Return mon e => (mon, e)
    end
  end.

Definition print_stats_results (mon : Monitor) (target : StatsTarget)
    (show_provider : bool) (result : StatsResult) (schema : list StatsSchema)
  : Monitor * Exit :=
  let schema_value_list :=
    find_schema_value_list schema (result_provider result) target in
  match schema_value_list with
  | [] =>
    (monitor_printf mon
       ("failed to find schema list for "
        +:+ StatsProvider_str (result_provider result) +:+ nl),
     NoSchemaList)
  | _ =>
    let mon :=
      if show_provider
      then monitor_printf mon
             ("provider: " +:+ StatsProvider_str (result_provider result) +:+ nl)
      else mon in
    for_loop mon (result_stats result) schema_value_list
  end.

(** What the spec has the formatter print for the unit of an entry
    whose exponent adds nothing: the letter of seconds and of bytes,
    the name of any other unit. *)
Definition unit_text (value : StatsSchemaValue) : string :=
  match ssv_unit value with
  | STATS_UNIT_SECONDS => "s"
  | STATS_UNIT_BYTES => "B"
  | u => StatsUnit_str u
  end.

(** The bucket size of a linear histogram, written before the closing
    parenthesis. *)
Definition bucket_tail (value : StatsSchemaValue) : list string :=
  if bool_decide (ssv_type value = STATS_TYPE_LINEAR_HISTOGRAM)
     && has_bucket_size value
  then [", bucket size=" +:+ fmt_d (bucket_size value)]
  else [].

(** The exponent in full, ["* <base>^<exponent>"]. *)
Definition exponential (value : StatsSchemaValue) : string :=
  "* " +:+ fmt_d (base value) +:+ "^" +:+ fmt_d (exponent value).
(** What it is to render every stat: each stat is written as the
    schema entry it goes with, followed by its value. *)
Fixpoint render_all (mon : Monitor) (stats_list : list Stats)
    (entries : list StatsSchemaValue) : Monitor :=
  match stats_list, entries with
  | stats :: stats_next, entry :: entries_next =>
    render_all
      (print_stats_value (print_stats_schema_value mon entry)
         (stats_value stats))
      stats_next entries_next
  | _, _ => mon
  end.

(** The line that names the provider, when it is asked for. *)
Definition provider_header (show_provider : bool) (result : StatsResult)
  : list string :=
  if show_provider
  then ["provider: " +:+ StatsProvider_str (result_provider result) +:+ nl]
  else [].
End StatsRenderer.

(** Modelled from the spec: the name tables of [StatsType] and
    [StatsUnit] are generated from the QAPI schema, and [si_prefix] and
    [iec_binary_prefix] live in util/cutils.c; none is part of the
    sources at hand.  The spec quotes "cumulative", "seconds" and
    "bytes", and the prefixes "k" for exponent 3, "M" for 6, "m" for -3,
    "n" for -9, "Ki" for 10 and "Mi" for 20; the other entries are the
    schema's spellings and the prefixes of the SI and IEC series. *)
Definition StatsType_qapi_name (t : StatsType) : string :=
  match t with
  | STATS_TYPE_CUMULATIVE => "cumulative"
  | STATS_TYPE_INSTANT => "instant"
  | STATS_TYPE_PEAK => "peak"
  | STATS_TYPE_LINEAR_HISTOGRAM => "linear-histogram"
  | STATS_TYPE_LOG2_HISTOGRAM => "log2-histogram"
  end.

Definition StatsUnit_qapi_name (u : StatsUnit) : string :=
  match u with
  | STATS_UNIT_BYTES => "bytes"
  | STATS_UNIT_SECONDS => "seconds"
  | STATS_UNIT_CYCLES => "cycles"
  | STATS_UNIT_BOOLEAN => "boolean"
  end.

Definition si_prefix_table (exp10 : Z) : string :=
  match exp10 with
  | (-18)%Z => "a" | (-15)%Z => "f" | (-12)%Z => "p" | (-9)%Z => "n"
  | (-6)%Z => "u" | (-3)%Z => "m" | 3%Z => "k" | 6%Z => "M" | 9%Z => "G"
  | 12%Z => "T" | 15%Z => "P" | 18%Z => "E"
  | _ => EmptyString
  end.

Definition iec_binary_prefix_table (exp2 : Z) : string :=
  match exp2 with
  | 10%Z => "Ki" | 20%Z => "Mi" | 30%Z => "Gi" | 40%Z => "Ti"
  | 50%Z => "Pi" | 60%Z => "Ei"
  | _ => EmptyString
  end.

(** ** The statistics filter builder *)

Section StatsFilterBuilder.
Variable STATS_PROVIDER__MAX : nat.
(** The virtual CPUs of the machine. *)
Variable cpus : list CPUState.

(** Modelled from the spec: [qemu_get_cpu] (hw/core) and
    [object_get_canonical_path] (qom) are not part of the sources at
    hand.  The spec has the builder "resolve the canonical object path
    of the vCPU identified by cpu-index" and adds that "filter
    construction itself does not fail": the look-up gives the vCPU
    that bears the index, if there is one, and the resolution of the
    path gives no path for no vCPU. *)
Definition qemu_get_cpu (index : Z) : option CPUState :=
  List.find (fun cpu => (cpu_index cpu =? index)%Z) cpus.

Definition object_get_canonical_path (cpu : option CPUState) : option string :=
  match cpu with
  | Some c => Some (canonical_path c)
  | None => None
  end.

(** [names && !g_str_equal(names, "*")]. *)
Definition names_chosen (names : option string) : bool :=
  match names with
  | Some s => negb (String.eqb s "*")
  | None => false
  end.

(** The body of the [if] inside the loop over the providers, up to
    the [QAPI_LIST_PREPEND]. *)
Definition new_request (provider_idx : StatsProvider) (names : option string)
  : StatsRequest :=
  if names_chosen names then
    {| request_provider := provider_idx;
       has_names := true;
       request_names := hmp_split_at_comma names |}
  else
    {| request_provider := provider_idx;
       has_names := false;
       request_names := [] |}.

(** [provider == STATS_PROVIDER__MAX || provider == provider_idx]. *)
Definition kept (provider provider_idx : StatsProvider) : bool :=
  (provider =? STATS_PROVIDER__MAX)%nat || (provider =? provider_idx)%nat.

(** One round of [for (provider_idx = 0; provider_idx < STATS_PROVIDER__MAX;
    provider_idx++)]. *)
Definition provider_round (names : option string) (provider : StatsProvider)
    (request_list : list StatsRequest) (provider_idx : StatsProvider)
  : list StatsRequest :=
  if kept provider provider_idx
  then new_request provider_idx names :: request_list
  else request_list.

Definition stats_filter (target : StatsTarget) (names : option string)
    (cpu_index : Z) (provider : StatsProvider) : StatsFilter :=
  let filter :=
    {| filter_target := target; has_vcpus := false; vcpus := [];
       has_providers := false; providers := [] |} in
  let filter :=
    match target with
    | STATS_TARGET_VM => filter
    | STATS_TARGET_VCPU =>
      let cpu := qemu_get_cpu cpu_index in
      let canonical_path := object_get_canonical_path cpu in
      let vcpu_list := canonical_path :: [] in
      {| filter_target := filter_target filter;
         has_vcpus := true; vcpus := vcpu_list;
         has_providers := has_providers filter;
         providers := providers filter |}
    | STATS_TARGET__MAX => filter
    end in
  if negb (bool_decide (is_Some names)) && (provider =? STATS_PROVIDER__MAX)%nat
  then filter
  else
    let request_list :=
      fold_left (provider_round names provider)
                (seq 0 STATS_PROVIDER__MAX) [] in
    {| filter_target := filter_target filter;
       has_vcpus := has_vcpus filter; vcpus := vcpus filter;
       has_providers := true; providers := request_list |}.
End StatsFilterBuilder.

(** ** info stats *)

Section InfoStats.
Variable STATS_PROVIDER__MAX : nat.
Variable cpus : list CPUState.
Variable StatsType_str : StatsType -> string.
Variable StatsUnit_str : StatsUnit -> string.
Variable StatsProvider_str : StatsProvider -> string.
Variable si_prefix : Z -> string.
Variable iec_binary_prefix : Z -> string.
(** [qapi_enum_parse] on the two lookup tables. *)
Variable StatsTarget_parse : string -> reply StatsTarget.
Variable StatsProvider_parse : string -> reply StatsProvider.
(** The two MAPI queries, and the index of the CPU the session has
    selected. *)
Variable qmp_query_stats_schemas :
  bool -> StatsProvider -> reply (list StatsSchema).
Variable qmp_query_stats : StatsFilter -> reply (list StatsResult).
Variable monitor_get_cpu_index : Z.

(** [for (entry = stats; entry; entry = entry->next)]: a call of the
    renderer that returns early does not end the loop; one that reads
    through a NULL cursor ends the process. *)
Fixpoint print_entries (mon : Monitor) (target : StatsTarget)
    (show_provider : bool) (stats : list StatsResult)
    (schema : list StatsSchema) : option Monitor :=
  match stats with
  | [] => Some mon
  | entry :: next =>
    match print_stats_results StatsType_str StatsUnit_str StatsProvider_str
            si_prefix iec_binary_prefix mon target show_provider entry schema
    with
    | (_, NullCursor) => None
    | (mon, _) => print_entries mon target show_provider next schema
    end
  end.

(** The label [exit]: print the error, if there is one, then fall
    through to [exit_no_print]. *)
Definition exit_print (err : option Error) (w : World) : World :=
  let w :=
    match err with
    | Some e => say (error_get_pretty e +:+ nl) w
    | None => w
    end in
  error_free err w.

(** [None] stands for a run that does not return: [abort ()], or a
    read through a NULL pointer. *)
Definition hmp_info_stats (target_str : string) (provider_str : option string)
    (names : option string) (w : World) : option World :=
  let provider := STATS_PROVIDER__MAX in
  match StatsTarget_parse target_str with
  | Fail err =>
    Some (error_free (Some err)
            (say ("invalid stats target " +:+ target_str +:+ nl) w))
  | Ok target =>
    let parsed :=
      match provider_str with
      | Some str => StatsProvider_parse str
      | None => Ok provider
      end in
    match parsed with
    | Fail err =>
      Some (error_free (Some err)
              (say ("invalid stats provider "
                    +:+ default EmptyString provider_str +:+ nl) w))
    | Ok provider =>
      match qmp_query_stats_schemas (bool_decide (is_Some provider_str))
              provider with
      | Fail err => Some (exit_print (Some err) w)
      | Ok schema =>
        let filter :=
          match target with
          | STATS_TARGET_VM =>
            Some (stats_filter STATS_PROVIDER__MAX cpus target names (-1)
                    provider)
          | STATS_TARGET_VCPU =>
            let cpu_index := monitor_get_cpu_index in
            Some (stats_filter STATS_PROVIDER__MAX cpus target names
                    cpu_index provider)
          | STATS_TARGET__MAX => None
          end in
        match filter with
        | None => None
        | Some filter =>
          match qmp_query_stats filter with
          | Fail err => Some (exit_print (Some err) w)
          | Ok stats =>
            match print_entries (sink w) target
                    (negb (bool_decide (is_Some provider_str))) stats schema
            with
            | None => None
            | Some mon =>
              Some (exit_print None (with_sink (fun _ => mon) w))
            end
          end
        end
      end
    end
  end.
End InfoStats.

(** ** The virtio printers *)

Record VirtioDeviceStatus : Type := {
  statuses : list string;
  has_unknown_statuses : bool;
  unknown_statuses : Z
}.

Record VhostDeviceProtocols : Type := {
  protocols : list string;
  has_unknown_protocols : bool;
  unknown_protocols : Z
}.

Record VirtioDeviceFeatures : Type := {
  transports : list string;
  dev_features : list string;
  has_unknown_dev_features : bool;
  unknown_dev_features : Z
}.

(** The loop the four list printers are written around:
    [while (list) { monitor_printf(mon, "\t%s", list->value);
    list = list->next; if (list != NULL) monitor_printf(mon, ",\n"); }]. *)
Fixpoint dump_strList (mon : Monitor) (l : list string) : Monitor :=
  match l with
  | [] => mon
  | value :: next =>
    let mon := monitor_printf mon (tab +:+ value) in
    let mon :=
      match next with
      | [] => mon
      | _ :: _ => monitor_printf mon ("," +:+ nl)
      end in
    dump_strList mon next
  end.

Definition hmp_virtio_dump_protocols (mon : Monitor) (pcol : VhostDeviceProtocols)
  : Monitor :=
  let mon := dump_strList mon (protocols pcol) in
  let mon := monitor_printf mon nl in
  if has_unknown_protocols pcol then
    monitor_printf mon
      ("  unknown-protocols(0x" +:+ fmt_016x64 (unknown_protocols pcol)
       +:+ ")" +:+ nl)
  else mon.

Definition hmp_virtio_dump_status (mon : Monitor) (status : VirtioDeviceStatus)
  : Monitor :=
  let mon := dump_strList mon (statuses status) in
  let mon := monitor_printf mon nl in
  if has_unknown_statuses status then
    monitor_printf mon
      ("  unknown-statuses(0x" +:+ fmt_016x32 (unknown_statuses status)
       +:+ ")" +:+ nl)
  else mon.

Definition hmp_virtio_dump_features (mon : Monitor)
    (features : VirtioDeviceFeatures) : Monitor :=
  let mon := dump_strList mon (transports features) in
  let mon := monitor_printf mon nl in
  let mon :=
    match dev_features features with
    | [] => mon
    | l => monitor_printf (dump_strList mon l) nl
    end in
  if has_unknown_dev_features features then
    monitor_printf mon
      ("  unknown-features(0x" +:+ fmt_016x64 (unknown_dev_features features)
       +:+ ")" +:+ nl)
  else mon.

(** What the spec says a list printer writes for the list itself: the
    elements, each after a tab, with [",\n"] between two of them. *)
Fixpoint separated (l : list string) : list string :=
  match l with
  | [] => []
  | [value] => [tab +:+ value]
  | value :: next => (tab +:+ value) :: ("," +:+ nl) :: separated next
  end.

(** How often a text was written to the sink. *)
Definition writes_of (text : string) (mon : Monitor) : nat :=
  count_occ string_dec mon text.

(** The line a list printer adds for the bits it has no name for. *)
Definition unknown_line (present : bool) (text : string) : list string :=
  if present then [text] else [].

(** ** Records rendered by the virtio and TPM handlers *)

Record VirtioInfo : Type := {
  vi_path : string;
  vi_name : string
}.

Record VhostStatus : Type := {
  nvqs : Z;
  vq_index : Z;
  max_queues : Z;
  n_mem_sections : Z;
  n_tmp_sections : Z;
  backend_cap : Z;
  log_enabled : bool;
  log_size : Z;
  vhost_features : VirtioDeviceFeatures;
  vhost_acked_features : VirtioDeviceFeatures;
  vhost_backend_features : VirtioDeviceFeatures;
  protocol_features : VhostDeviceProtocols
}.

Record VirtioStatus : Type := {
  vs_name : string;
  device_id : Z;
  vhost_started : bool;
  bus_name : string;
  broken : bool;
  disabled : bool;
  disable_legacy_check : bool;
  started : bool;
  use_started : bool;
  start_on_kick : bool;
  use_guest_notifier_mask : bool;
  vm_running : bool;
  num_vqs : Z;
  queue_sel : Z;
  isr : Z;
  device_endian : string;
  vs_status : VirtioDeviceStatus;
  guest_features : VirtioDeviceFeatures;
  host_features : VirtioDeviceFeatures;
  backend_features : VirtioDeviceFeatures;
  vhost_dev : option VhostStatus
}.

Record VirtVhostQueueStatus : Type := {
  vvq_name : string;
  kick : Z;
  call : Z;
  num : Z;
  desc : Z;
  desc_phys : Z;
  desc_size : Z;
  avail : Z;
  avail_phys : Z;
  avail_size : Z;
  used : Z;
  used_phys : Z;
  used_size : Z
}.

Record VirtQueueStatus : Type := {
  vq_name : string;
  queue_index : Z;
  inuse : Z;
  used_idx : Z;
  signalled_used : Z;
  signalled_used_valid : bool;
  has_last_avail_idx : bool;
  last_avail_idx : Z;
  has_shadow_avail_idx : bool;
  shadow_avail_idx : Z;
  vring_num : Z;
  vring_num_default : Z;
  vring_align : Z;
  vring_desc : Z;
  vring_avail : Z;
  vring_used : Z
}.

Record VirtioRingDesc : Type := {
  addr : Z;
  len : Z;
  desc_flags : list string
}.

Record VirtioRingAvail : Type := {
  avail_flags : Z;
  avail_idx : Z;
  avail_ring : Z
}.

Record VirtioRingUsed : Type := {
  used_flags : Z;
  used_ring_idx : Z
}.

Record VirtioQueueElement : Type := {
  vqe_name : string;
  vqe_index : Z;
  descs : list VirtioRingDesc;
  vqe_avail : VirtioRingAvail;
  vqe_used : VirtioRingUsed
}.

(** The union [TpmTypeOptions] with its tag. *)
Inductive TpmTypeOptions : Type :=
  | passthrough (path cancel_path : option string)
  | emulator (chardev : string)
  | options_max.

Definition options_type (o : TpmTypeOptions) : TpmType :=
  match o with
  | passthrough _ _ => TPM_TYPE_PASSTHROUGH
  | emulator _ => TPM_TYPE_EMULATOR
  | options_max => TPM_TYPE__MAX
  end.

Record TPMInfo : Type := {
  tpm_id : string;
  tpm_model : TpmModel;
  tpm_options : TpmTypeOptions
}.

(** A run of calls of [monitor_printf], one per text. *)
Definition monitor_printfs (mon : Monitor) (texts : list string) : Monitor :=
  fold_left monitor_printf texts mon.

(** [b ? "true" : "false"]. *)
Definition true_false (b : bool) : string := if b then "true" else "false".

(** ** The command handlers that see an error descriptor *)

(** Handlers that only fire a command and report. *)
Section FireAndReport.
Variable qmp_x_exit_preconfig : option Error.
Variable qmp_cont : option Error.
Variable qmp_getfd : string -> option Error.
Variable qmp_closefd : string -> option Error.
(** Whether VNC support is compiled in, and the two change handlers,
    which live in other files; they are given the monitor and leave
    their error in [err]. *)
Variable CONFIG_VNC : bool.
Variable hmp_change_vnc hmp_change_medium :
  string -> string -> option string -> option string -> bool ->
  World -> World * option Error.

Definition hmp_exit_preconfig (w : World) : World :=
  let err := qmp_x_exit_preconfig in
  snd (hmp_handle_error err w).

Definition hmp_cont (w : World) : World :=
  let err := qmp_cont in
  snd (hmp_handle_error err w).

Definition hmp_change (device target : string) (arg read_only : option string)
    (force : bool) (w : World) : World :=
  let '(w, err) :=
    if CONFIG_VNC && String.eqb device "vnc"
    then hmp_change_vnc device target arg read_only force w
    else hmp_change_medium device target arg read_only force w in
  snd (hmp_handle_error err w).

Definition hmp_getfd (fdname : string) (w : World) : World :=
  let err := qmp_getfd fdname in
  snd (hmp_handle_error err w).

Definition hmp_closefd (fdname : string) (w : World) : World :=
  let err := qmp_closefd fdname in
  snd (hmp_handle_error err w).
End FireAndReport.

Section InfoTpm.
Variable CONFIG_TPM : bool.
Variable qmp_query_tpm : reply (list TPMInfo).
Variable TpmModel_str : TpmModel -> string.
Variable TpmType_str : TpmType -> string.

(** [for (info = info_list; info; info = info->next)], with the
    counter [c]. *)
Fixpoint print_tpm_list (mon : Monitor) (info : list TPMInfo) (c : Z)
  : Monitor :=
  match info with
  | [] => mon
  | ti :: next =>
    let mon := monitor_printf mon
      (" tpm" +:+ fmt_d c +:+ ": model=" +:+ TpmModel_str (tpm_model ti)
       +:+ nl) in
    let mon := monitor_printf mon
      ("  \ " +:+ tpm_id ti +:+ ": type="
       +:+ TpmType_str (options_type (tpm_options ti))) in
    let mon :=
      match tpm_options ti with
      | passthrough path cancel_path =>
        monitor_printf mon
          ((if bool_decide (is_Some path) then ",path=" else EmptyString)
           +:+ default EmptyString path
           +:+ (if bool_decide (is_Some cancel_path) then ",cancel-path="
                else EmptyString)
           +:+ default EmptyString cancel_path)
      | emulator chardev => monitor_printf mon (",chardev=" +:+ chardev)
      | options_max => mon
      end in
    let mon := monitor_printf mon nl in
    print_tpm_list mon next (c + 1)%Z
  end.

Definition hmp_info_tpm (w : World) : World :=
  if CONFIG_TPM then
    match qmp_query_tpm with
    | Fail err =>
      error_free (Some err) (say ("TPM device not supported" +:+ nl) w)
    | Ok info_list =>
      let w :=
        match info_list with
        | [] => w
        | _ :: _ => say ("TPM device:" +:+ nl) w
        end in
      with_sink (fun mon => print_tpm_list mon info_list 0) w
    end
  else say ("TPM device not supported" +:+ nl) w.
End InfoTpm.

Section VirtioHandlers.
Variable qmp_x_query_virtio : reply (list VirtioInfo).
Variable qmp_x_query_virtio_status : string -> reply VirtioStatus.
Variable qmp_x_query_virtio_vhost_queue_status :
  string -> Z -> reply VirtVhostQueueStatus.
Variable qmp_x_query_virtio_queue_status :
  string -> Z -> reply VirtQueueStatus.
Variable qmp_x_query_virtio_queue_element :
  string -> Z -> bool -> Z -> reply VirtioQueueElement.

(** [while (node)] of [hmp_virtio_query]. *)
Fixpoint print_virtio_nodes (mon : Monitor) (node : list VirtioInfo) : Monitor :=
  match node with
  | [] => mon
  | value :: next =>
    print_virtio_nodes
      (monitor_printf mon
         (vi_path value +:+ " [" +:+ vi_name value +:+ "]" +:+ nl))
      next
  end.

Definition hmp_virtio_query (w : World) : World :=
  match qmp_x_query_virtio with
  | Fail err => snd (hmp_handle_error (Some err) w)
  | Ok [] => say ("No VirtIO devices" +:+ nl) w
  | Ok l => with_sink (fun mon => print_virtio_nodes mon l) w
  end.

(** The block printed for [s->vhost_dev]. *)
Definition print_vhost_dev (mon : Monitor) (v : VhostStatus) : Monitor :=
  let mon := monitor_printfs mon
    [ "  VHost:" +:+ nl;
      "    nvqs:           " +:+ fmt_d (nvqs v) +:+ nl;
      "    vq_index:       " +:+ fmt_d64 (vq_index v) +:+ nl;
      "    max_queues:     " +:+ fmt_d64 (max_queues v) +:+ nl;
      "    n_mem_sections: " +:+ fmt_d64 (n_mem_sections v) +:+ nl;
      "    n_tmp_sections: " +:+ fmt_d64 (n_tmp_sections v) +:+ nl;
      "    backend_cap:    " +:+ fmt_d64 (backend_cap v) +:+ nl;
      "    log_enabled:    " +:+ true_false (log_enabled v) +:+ nl;
      "    log_size:       " +:+ fmt_d64 (log_size v) +:+ nl;
      "    Features:" +:+ nl ] in
  let mon := hmp_virtio_dump_features mon (vhost_features v) in
  let mon := monitor_printf mon ("    Acked features:" +:+ nl) in
  let mon := hmp_virtio_dump_features mon (vhost_acked_features v) in
  let mon := monitor_printf mon ("    Backend features:" +:+ nl) in
  let mon := hmp_virtio_dump_features mon (vhost_backend_features v) in
  let mon := monitor_printf mon ("    Protocol features:" +:+ nl) in
  hmp_virtio_dump_protocols mon (protocol_features v).

Definition print_virtio_status (mon : Monitor) (path : string)
    (s : VirtioStatus) : Monitor :=
  let mon := monitor_printfs mon
    [ path +:+ ":" +:+ nl;
      "  device_name:             " +:+ vs_name s +:+ " "
        +:+ (if bool_decide (is_Some (vhost_dev s)) then "(vhost)"
             else EmptyString) +:+ nl;
      "  device_id:               " +:+ fmt_d (device_id s) +:+ nl;
      "  vhost_started:           " +:+ true_false (vhost_started s) +:+ nl;
      "  bus_name:                " +:+ bus_name s +:+ nl;
      "  broken:                  " +:+ true_false (broken s) +:+ nl;
      "  disabled:                " +:+ true_false (disabled s) +:+ nl;
      "  disable_legacy_check:    "
        +:+ true_false (disable_legacy_check s) +:+ nl;
      "  started:                 " +:+ true_false (started s) +:+ nl;
      "  use_started:             " +:+ true_false (use_started s) +:+ nl;
      "  start_on_kick:           " +:+ true_false (start_on_kick s) +:+ nl;
      "  use_guest_notifier_mask: "
        +:+ true_false (use_guest_notifier_mask s) +:+ nl;
      "  vm_running:              " +:+ true_false (vm_running s) +:+ nl;
      "  num_vqs:                 " +:+ fmt_d64 (num_vqs s) +:+ nl;
      "  queue_sel:               " +:+ fmt_d (queue_sel s) +:+ nl;
      "  isr:                     " +:+ fmt_d (isr s) +:+ nl;
      "  endianness:              " +:+ device_endian s +:+ nl;
      "  status:" +:+ nl ] in
  let mon := hmp_virtio_dump_status mon (vs_status s) in
  let mon := monitor_printf mon ("  Guest features:" +:+ nl) in
  let mon := hmp_virtio_dump_features mon (guest_features s) in
  let mon := monitor_printf mon ("  Host features:" +:+ nl) in
  let mon := hmp_virtio_dump_features mon (host_features s) in
  let mon := monitor_printf mon ("  Backend features:" +:+ nl) in
  let mon := hmp_virtio_dump_features mon (backend_features s) in
  match vhost_dev s with
  | Some v => print_vhost_dev mon v
  | None => mon
  end.

Definition hmp_virtio_status (path : string) (w : World) : World :=
  match qmp_x_query_virtio_status path with
  | Fail err => snd (hmp_handle_error (Some err) w)
  | Ok s => with_sink (fun mon => print_virtio_status mon path s) w
  end.

Definition hmp_vhost_queue_status (path : string) (queue : Z) (w : World)
  : World :=
  let queue := sint 32 queue in
  match qmp_x_query_virtio_vhost_queue_status path queue with
  | Fail err => snd (hmp_handle_error (Some err) w)
  | Ok s =>
    with_sink (fun mon => monitor_printfs mon
      [ path +:+ ":" +:+ nl;
        "  device_name:          " +:+ vvq_name s +:+ " (vhost)" +:+ nl;
        "  kick:                 " +:+ fmt_d64 (kick s) +:+ nl;
        "  call:                 " +:+ fmt_d64 (call s) +:+ nl;
        "  VRing:" +:+ nl;
        "    num:         " +:+ fmt_d64 (num s) +:+ nl;
        "    desc:        0x" +:+ fmt_016x64 (desc s) +:+ nl;
        "    desc_phys:   0x" +:+ fmt_016x64 (desc_phys s) +:+ nl;
        "    desc_size:   " +:+ fmt_d (desc_size s) +:+ nl;
        "    avail:       0x" +:+ fmt_016x64 (avail s) +:+ nl;
        "    avail_phys:  0x" +:+ fmt_016x64 (avail_phys s) +:+ nl;
        "    avail_size:  " +:+ fmt_d (avail_size s) +:+ nl;
        "    used:        0x" +:+ fmt_016x64 (used s) +:+ nl;
        "    used_phys:   0x" +:+ fmt_016x64 (used_phys s) +:+ nl;
        "    used_size:   " +:+ fmt_d (used_size s) +:+ nl ]) w
  end.

Definition print_virtio_queue_status (mon : Monitor) (path : string)
    (s : VirtQueueStatus) : Monitor :=
  let mon := monitor_printfs mon
    [ path +:+ ":" +:+ nl;
      "  device_name:          " +:+ vq_name s +:+ nl;
      "  queue_index:          " +:+ fmt_d (queue_index s) +:+ nl;
      "  inuse:                " +:+ fmt_d (inuse s) +:+ nl;
      "  used_idx:             " +:+ fmt_d (used_idx s) +:+ nl;
      "  signalled_used:       " +:+ fmt_d (signalled_used s) +:+ nl;
      "  signalled_used_valid: "
        +:+ true_false (signalled_used_valid s) +:+ nl ] in
  let mon :=
    if has_last_avail_idx s then
      monitor_printf mon
        ("  last_avail_idx:       " +:+ fmt_d (last_avail_idx s) +:+ nl)
    else mon in
  let mon :=
    if has_shadow_avail_idx s then
      monitor_printf mon
        ("  shadow_avail_idx:     " +:+ fmt_d (shadow_avail_idx s) +:+ nl)
    else mon in
  monitor_printfs mon
    [ "  VRing:" +:+ nl;
      "    num:          " +:+ fmt_d (vring_num s) +:+ nl;
      "    num_default:  " +:+ fmt_d (vring_num_default s) +:+ nl;
      "    align:        " +:+ fmt_d (vring_align s) +:+ nl;
      "    desc:         0x" +:+ fmt_016x64 (vring_desc s) +:+ nl;
      "    avail:        0x" +:+ fmt_016x64 (vring_avail s) +:+ nl;
      "    used:         0x" +:+ fmt_016x64 (vring_used s) +:+ nl ].

Definition hmp_virtio_queue_status (path : string) (queue : Z) (w : World)
  : World :=
  let queue := sint 32 queue in
  match qmp_x_query_virtio_queue_status path queue with
  | Fail err => snd (hmp_handle_error (Some err) w)
  | Ok s => with_sink (fun mon => print_virtio_queue_status mon path s) w
  end.

(** [while (flag)] over the flags of one descriptor. *)
Fixpoint print_desc_flags (mon : Monitor) (flag : list string) : Monitor :=
  match flag with
  | [] => mon
  | value :: next =>
    let mon := monitor_printf mon value in
    let mon :=
      match next with
      | [] => mon
      | _ :: _ => monitor_printf mon ", "
      end in
    print_desc_flags mon next
  end.

(** [while (list)] over the descriptors. *)
Fixpoint print_descs (mon : Monitor) (l : list VirtioRingDesc) : Monitor :=
  match l with
  | [] => mon
  | value :: next =>
    let mon := monitor_printf mon
      ("        addr 0x" +:+ fmt_x64 (addr value) +:+ " len "
       +:+ fmt_d (len value)) in
    let mon :=
      match desc_flags value with
      | [] => mon
      | flag =>
        let mon := monitor_printf mon " (" in
        let mon := print_desc_flags mon flag in
        monitor_printf mon ")"
      end in
    let mon :=
      match next with
      | [] => mon
      | _ :: _ => monitor_printf mon ("," +:+ nl)
      end in
    print_descs mon next
  end.

Definition print_virtio_queue_element (mon : Monitor) (path : string)
    (e : VirtioQueueElement) : Monitor :=
  let mon := monitor_printfs mon
    [ path +:+ ":" +:+ nl;
      "  device_name: " +:+ vqe_name e +:+ nl;
      "  index:   " +:+ fmt_d (vqe_index e) +:+ nl;
      "  desc:" +:+ nl;
      "    descs:" +:+ nl ] in
  let mon := print_descs mon (descs e) in
  monitor_printfs mon
    [ nl;
      "  avail:" +:+ nl;
      "    flags: " +:+ fmt_d (avail_flags (vqe_avail e)) +:+ nl;
      "    idx:   " +:+ fmt_d (avail_idx (vqe_avail e)) +:+ nl;
      "    ring:  " +:+ fmt_d (avail_ring (vqe_avail e)) +:+ nl;
      "  used:" +:+ nl;
      "    flags: " +:+ fmt_d (used_flags (vqe_used e)) +:+ nl;
      "    idx:   " +:+ fmt_d (used_ring_idx (vqe_used e)) +:+ nl ].

(** [index] is the value of [qdict_get_try_int (qdict, "index", -1)]. *)
Definition hmp_virtio_queue_element (path : string) (queue index : Z)
    (w : World) : World :=
  let queue := sint 32 queue in
  let index := sint 32 index in
  match qmp_x_query_virtio_queue_element path queue
          (negb (index =? -1)%Z) index with
  | Fail err => snd (hmp_handle_error (Some err) w)
  | Ok e => with_sink (fun mon => print_virtio_queue_element mon path e) w
  end.
End VirtioHandlers.

(** ** sync-profile and info iothreads *)

Section SyncProfile.
(** The synchronization profiler of util/qsp.c, which is not part of
    the sources at hand: its state, and the four entry points the
    handler calls.  [QERR_INVALID_PARAMETER], a format with one [%s],
    is a macro of qapi/qmp/qerror.h; it is taken with its argument
    filled in. *)
Variable Qsp : Type.
Variable qsp_is_enabled : Qsp -> bool.
Variable qsp_enable qsp_disable qsp_reset : Qsp -> Qsp.
Variable QERR_INVALID_PARAMETER : string -> string.

Definition hmp_sync_profile (op : option string) (q : Qsp) (w : World)
  : Qsp * World :=
  match op with
  | None =>
    let on := qsp_is_enabled q in
    (q, say ("sync-profile is " +:+ (if on then "on" else "off") +:+ nl) w)
  | Some op =>
    if String.eqb op "on" then (qsp_enable q, w)
    else if String.eqb op "off" then (qsp_disable q, w)
    else if String.eqb op "reset" then (qsp_reset q, w)
    else
      let err := {| error_get_pretty := QERR_INVALID_PARAMETER op |} in
      (q, snd (hmp_handle_error (Some err) w))
  end.
End SyncProfile.

Record IOThreadInfo : Type := {
  iothread_id : string;
  thread_id : Z;
  poll_max_ns : Z;
  poll_grow : Z;
  poll_shrink : Z;
  aio_max_batch : Z
}.

(** [for (info = info_list; info; info = info->next)] of
    [hmp_info_iothreads]. *)
Fixpoint print_iothreads (mon : Monitor) (info : list IOThreadInfo) : Monitor :=
  match info with
  | [] => mon
  | value :: next =>
    let mon := monitor_printfs mon
      [ iothread_id value +:+ ":" +:+ nl;
        "  thread_id=" +:+ fmt_d64 (thread_id value) +:+ nl;
        "  poll-max-ns=" +:+ fmt_d64 (poll_max_ns value) +:+ nl;
        "  poll-grow=" +:+ fmt_d64 (poll_grow value) +:+ nl;
        "  poll-shrink=" +:+ fmt_d64 (poll_shrink value) +:+ nl;
        "  aio-max-batch=" +:+ fmt_d64 (aio_max_batch value) +:+ nl ] in
    print_iothreads mon next
  end.

(** [qmp_query_iothreads] is called with a NULL [errp]: the handler
    sees its list only. *)
Definition hmp_info_iothreads (info_list : list IOThreadInfo) (w : World)
  : World :=
  with_sink (fun mon => print_iothreads mon info_list) w.

(** ** Notions the properties are stated with *)

(** The number of commas of a string. *)
Fixpoint commas (s : string) : nat :=
  match s with
  | EmptyString => 0
  | String c rest => (if Ascii.eqb c comma then 1 else 0) + commas rest
  end.

(** One descriptor of a queue element as a text: address and length,
    then the flags, if there are any, in parentheses. *)
Definition desc_text (d : VirtioRingDesc) : string :=
  "        addr 0x" +:+ fmt_x64 (addr d) +:+ " len " +:+ fmt_d (len d)
  +:+ match desc_flags d with
      | [] => EmptyString
      | flags => " (" +:+ String.concat ", " flags +:+ ")"
      end.

(** The line of one virtio device in the answer to [info virtio]. *)
Definition virtio_node_line (value : VirtioInfo) : string :=
  vi_path value +:+ " [" +:+ vi_name value +:+ "]" +:+ nl.

(** The name list of a result is within the schema: the invariant the
    renderer relies on. *)
Definition within_schema (schema : list StatsSchema) (target : StatsTarget)
    (result : StatsResult) : Prop :=
  map stats_name (result_stats result)
  `sublist_of`
  map ssv_name (find_schema_value_list schema (result_provider result) target).

(** What is on the sink for one stat that has been rendered, written
    out in full: the schema entry, then the value.  Both are given by
    cases on the data, with no reference to the renderer. *)
Section RenderedStat.
Variable StatsType_str : StatsType -> string.
Variable StatsUnit_str : StatsUnit -> string.
Variable si_prefix : Z -> string.
Variable iec_binary_prefix : Z -> string.

Definition entry_writes (entry : StatsSchemaValue) : list string :=
  let e := exponent entry in
  let si :=
    (base entry =? 10)%Z && (-18 <=? e)%Z && (e <=? 18)%Z
    && (Z.rem e 3 =? 0)%Z in
  let iec :=
    (base entry =? 2)%Z && (0 <=? e)%Z && (e <=? 60)%Z
    && (Z.rem e 10 =? 0)%Z in
  let letter :=
    if has_unit entry then
      match ssv_unit entry with
      | STATS_UNIT_SECONDS => Some "s"
      | STATS_UNIT_BYTES => Some "B"
      | STATS_UNIT_CYCLES | STATS_UNIT_BOOLEAN => None
      end
    else None in
  let named :=
    if has_unit entry then [StatsUnit_str (ssv_unit entry)] else [] in
  let power :=
    "* " +:+ fmt_d (base entry) +:+ "^" +:+ fmt_d e
    +:+ (if has_unit entry then " " else EmptyString) in
  [ "    " +:+ ssv_name entry +:+ " (" +:+ StatsType_str (ssv_type entry)
    +:+ (if has_unit entry || negb (e =? 0)%Z then ", " else EmptyString) ]
  ++ match letter with
     | Some u =>
       if si then [si_prefix e; u]
       else if iec then [iec_binary_prefix e; u]
       else if (e =? 0)%Z then [u]
       else power :: named
     | None => if (e =? 0)%Z then named else power :: named
     end
  ++ match ssv_type entry with
     | STATS_TYPE_LINEAR_HISTOGRAM =>
       if has_bucket_size entry
       then [", bucket size=" +:+ fmt_d (bucket_size entry)]
       else []
     | _ => []
     end
  ++ [")"].

Definition value_writes (value : StatsValue) : list string :=
  match value with
  | QTYPE_QNUM scalar => [": " +:+ fmt_d64 scalar +:+ nl]
  | QTYPE_QBOOL boolean => [": " +:+ (if boolean then "yes" else "no") +:+ nl]
  | QTYPE_QLIST l =>
    [": "]
    ++ imap (fun k element =>
               "[" +:+ fmt_d (Z.of_nat k + 1) +:+ "]=" +:+ fmt_d64 element
               +:+ " ") l
    ++ [nl]
  | QTYPE_other => []
  end.

Definition stat_writes (stats : Stats) (entry : StatsSchemaValue)
  : list string :=
  entry_writes entry ++ value_writes (stats_value stats).
End RenderedStat.

(** * Properties *)

(** ** The comma splitter *)

Lemma append_all_app (split res : list string) :
  append_all split res = res ++ split.
Proof.
  revert res; induction split as [|s rest IH]; intros res; simpl.
  - by rewrite app_nil_r.
  - by rewrite IH, <- app_assoc.
Qed.

Lemma hmp_split_at_comma_unfold (str : option string) :
  hmp_split_at_comma str = g_strsplit (default EmptyString str) comma.
Proof. unfold hmp_split_at_comma. by rewrite append_all_app. Qed.

Lemma pieces_field (x s : string) :
  comma_free x = true ->
  pieces comma (x +:+ String comma s) = x :: pieces comma s.
Proof.
  induction x as [|c x IH]; simpl; intros Hx; [done|].
  apply andb_prop in Hx as [Hc Hx].
  apply negb_true_iff in Hc. rewrite Hc.
  by rewrite (IH Hx).
Qed.

Lemma pieces_last (x : string) :
  comma_free x = true -> pieces comma x = [x].
Proof.
  induction x as [|c x IH]; simpl; intros Hx; [done|].
  apply andb_prop in Hx as [Hc Hx].
  apply negb_true_iff in Hc. rewrite Hc.
  by rewrite (IH Hx).
Qed.

Lemma pieces_comma_join (x : string) (xs : list string) :
  Forall (fun y => comma_free y = true) (x :: xs) ->
  pieces comma (comma_join (x :: xs)) = x :: xs.
Proof.
  revert x; induction xs as [|y ys IH]; intros x Hall.
  - apply pieces_last. by inversion Hall.
  - inversion Hall as [|? ? Hx Hrest]; subst.
    change (comma_join (x :: y :: ys))
      with (x +:+ String comma (comma_join (y :: ys))).
    rewrite (pieces_field _ _ Hx). by rewrite (IH y Hrest).
Qed.

Lemma comma_join_nonempty (x : string) (xs : list string) :
  nonempty x = true -> nonempty (comma_join (x :: xs)) = true.
Proof.
  destruct x as [|c x]; [done|]. intros _.
  destruct xs; reflexivity.
Qed.

(** C6, as the claim words it, does not hold: a field may itself hold a
    comma, and the splitter, which knows no quoting, cuts it in two.
    The list of the one non-empty field ["a,b"] is joined to "a,b" and
    split into "a" and "b". *)
Lemma split_join_field_with_comma :
  ~ (forall xs : list string,
       Forall (fun x => nonempty x = true) xs ->
       hmp_split_at_comma (Some (comma_join xs)) = xs).
Proof.
  intros H. specialize (H ["a,b"]).
  assert (Hne : Forall (fun x => nonempty x = true) ["a,b"])
    by (repeat constructor).
  specialize (H Hne). vm_compute in H. discriminate H.
Qed.

(** C6 (amended): the comma splitter is a left inverse of comma-join on
    the lists of fields that are non-empty and hold no comma:
    [split (join xs) = xs] for every such list; the empty string and
    the null string are split into the empty list. *)
Theorem hmp_split_at_comma_left_inverse :
  (forall xs : list string,
     Forall (fun x => nonempty x = true /\ comma_free x = true) xs ->
     hmp_split_at_comma (Some (comma_join xs)) = xs)
  /\ hmp_split_at_comma (Some EmptyString) = []
  /\ hmp_split_at_comma None = [].
Proof.
  split; [|split; reflexivity].
  intros xs Hall. rewrite hmp_split_at_comma_unfold. simpl.
  destruct xs as [|x xs]; [reflexivity|].
  assert (Hx : nonempty x = true) by (inversion Hall; tauto).
  pose proof (comma_join_nonempty x xs Hx) as Hj.
  unfold g_strsplit.
  destruct (comma_join (x :: xs)) as [|c s] eqn:Ej; [discriminate Hj|].
  rewrite <- Ej. apply pieces_comma_join.
  eapply Forall_impl; [exact Hall|]. simpl. tauto.
Qed.

Lemma hmp_split_at_comma_left_inverse_witness :
  hmp_split_at_comma (Some (comma_join ["exits"; "halt_poll_success_ns"]))
  = ["exits"; "halt_poll_success_ns"].
Proof.
  apply (proj1 hmp_split_at_comma_left_inverse).
  repeat constructor.
Defined.

(** ** info status *)

(** C8: while the machine runs, the run state has no part in what
    [info status] prints, which is "VM status: running", followed by
    " (single step mode)" exactly when single-stepping, and a newline;
    a machine that is not running, not single-stepping and in the state
    guest-panicked is shown as "VM status: paused (guest-panicked)". *)
Theorem hmp_info_status_rendering (RunState_str : RunState -> string) :
  RunState_str RUN_STATE_GUEST_PANICKED = "guest-panicked" ->
  (forall (info : StatusInfo) (mon : Monitor),
     running info = true ->
     hmp_info_status RunState_str info mon
     = mon ++ [ "VM status: running"
                +:+ (if singlestep info then " (single step mode)"
                     else EmptyString);
                nl ])
  /\ (forall (st : RunState) (single : bool),
        monitor_text
          (hmp_info_status RunState_str
             {| running := true; singlestep := single; status := st |} [])
        = "VM status: running"
          +:+ (if single then " (single step mode)" else EmptyString) +:+ nl)
  /\ monitor_text
       (hmp_info_status RunState_str
          {| running := false; singlestep := false;
             status := RUN_STATE_GUEST_PANICKED |} [])
     = "VM status: paused (guest-panicked)" +:+ nl.
Proof.
  intros Hname. split; [|split].
  - intros info mon Hrun. unfold hmp_info_status, monitor_printf.
    rewrite Hrun. simpl. by rewrite <- app_assoc.
  - intros st single. unfold hmp_info_status. simpl.
    destruct single; reflexivity.
  - unfold hmp_info_status. simpl. rewrite Hname. reflexivity.
Qed.

Lemma hmp_info_status_rendering_witness :
  monitor_text
    (hmp_info_status RunState_qapi_name
       {| running := false; singlestep := false;
          status := RUN_STATE_GUEST_PANICKED |} [])
  = "VM status: paused (guest-panicked)" +:+ nl.
Proof.
  apply (hmp_info_status_rendering RunState_qapi_name eq_refl).
Defined.

(** ** The virtio list printers *)

Lemma dump_strList_separated (mon : Monitor) (l : list string) :
  dump_strList mon l = mon ++ separated l.
Proof.
  revert mon; induction l as [|value next IH]; intros mon.
  - simpl. by rewrite app_nil_r.
  - destruct next as [|value' next'].
    + reflexivity.
    + change (dump_strList mon (value :: value' :: next'))
        with (dump_strList
                (monitor_printf (monitor_printf mon (tab +:+ value))
                   ("," +:+ nl))
                (value' :: next')).
      rewrite IH. unfold monitor_printf.
      change (separated (value :: value' :: next'))
        with ((tab +:+ value) :: ("," +:+ nl) :: separated (value' :: next')).
      by rewrite <- !app_assoc.
Qed.

Lemma writes_of_app (text : string) (m1 m2 : Monitor) :
  writes_of text (m1 ++ m2) = writes_of text m1 + writes_of text m2.
Proof. unfold writes_of. apply count_occ_app. Qed.

Lemma writes_of_cons (text t : string) (m : Monitor) :
  writes_of text (t :: m)
  = (if bool_decide (t = text) then 1 else 0) + writes_of text m.
Proof.
  unfold writes_of. simpl.
  destruct (string_dec t text) as [E|E].
  - by rewrite bool_decide_eq_true_2.
  - by rewrite bool_decide_eq_false_2.
Qed.

Lemma separated_length (l : list string) :
  length (separated l) = 2 * length l - 1.
Proof.
  induction l as [|value [|value' next] IH]; [done..|].
  change (separated (value :: value' :: next))
    with ((tab +:+ value) :: ("," +:+ nl) :: separated (value' :: next)).
  simpl length in *. lia.
Qed.

Lemma separated_element (l : list string) (i : nat) (value : string) :
  l !! i = Some value -> separated l !! (2 * i) = Some (tab +:+ value).
Proof.
  revert i; induction l as [|v [|v' next] IH]; intros i Hi; [done| |].
  - destruct i; [|done]. by inversion Hi.
  - destruct i as [|i].
    + by inversion Hi.
    + replace (2 * S i) with (S (S (2 * i))) by lia.
      change (separated (v :: v' :: next))
        with ((tab +:+ v) :: ("," +:+ nl) :: separated (v' :: next)).
      simpl lookup. apply IH. exact Hi.
Qed.

Lemma separated_separator (l : list string) (i : nat) :
  S i < length l -> separated l !! (2 * i + 1) = Some ("," +:+ nl).
Proof.
  revert i; induction l as [|v [|v' next] IH]; intros i Hi;
    [simpl in Hi; lia..|].
  change (separated (v :: v' :: next))
    with ((tab +:+ v) :: ("," +:+ nl) :: separated (v' :: next)).
  destruct i as [|i]; [reflexivity|].
  replace (2 * S i + 1) with (S (S (2 * i + 1))) by lia.
  simpl lookup. apply IH. simpl length in *. lia.
Qed.

Lemma separated_separators (l : list string) :
  writes_of ("," +:+ nl) (separated l) = length l - 1
  /\ writes_of nl (separated l) = 0.
Proof.
  induction l as [|value [|value' next] [IH1 IH2]]; [done|done|].
  change (separated (value :: value' :: next))
    with ((tab +:+ value) :: ("," +:+ nl) :: separated (value' :: next)).
  rewrite !writes_of_cons, IH1, IH2. simpl length.
  split.
  - rewrite bool_decide_eq_false_2 by (unfold tab; simpl; discriminate).
    rewrite bool_decide_eq_true_2 by done. lia.
  - rewrite !bool_decide_eq_false_2; [done|discriminate|].
    unfold tab; simpl; discriminate.
Qed.

Lemma hmp_virtio_dump_protocols_writes (mon : Monitor) (pcol : VhostDeviceProtocols) :
  hmp_virtio_dump_protocols mon pcol
  = mon ++ separated (protocols pcol) ++ [nl]
    ++ unknown_line (has_unknown_protocols pcol)
         ("  unknown-protocols(0x" +:+ fmt_016x64 (unknown_protocols pcol)
          +:+ ")" +:+ nl).
Proof.
  unfold hmp_virtio_dump_protocols, monitor_printf, unknown_line.
  rewrite dump_strList_separated.
  destruct (has_unknown_protocols pcol); by rewrite <- ?app_assoc, ?app_nil_r.
Qed.

Lemma hmp_virtio_dump_status_writes (mon : Monitor) (status : VirtioDeviceStatus) :
  hmp_virtio_dump_status mon status
  = mon ++ separated (statuses status) ++ [nl]
    ++ unknown_line (has_unknown_statuses status)
         ("  unknown-statuses(0x" +:+ fmt_016x32 (unknown_statuses status)
          +:+ ")" +:+ nl).
Proof.
  unfold hmp_virtio_dump_status, monitor_printf, unknown_line.
  rewrite dump_strList_separated.
  destruct (has_unknown_statuses status); by rewrite <- ?app_assoc, ?app_nil_r.
Qed.

Lemma hmp_virtio_dump_features_writes (mon : Monitor)
    (features : VirtioDeviceFeatures) :
  hmp_virtio_dump_features mon features
  = mon ++ separated (transports features) ++ [nl]
    ++ match dev_features features with
       | [] => []
       | l => separated l ++ [nl]
       end
    ++ unknown_line (has_unknown_dev_features features)
         ("  unknown-features(0x" +:+ fmt_016x64 (unknown_dev_features features)
          +:+ ")" +:+ nl).
Proof.
  unfold hmp_virtio_dump_features, monitor_printf, unknown_line.
  rewrite dump_strList_separated.
  destruct (dev_features features) as [|d ds];
    [|rewrite dump_strList_separated];
    destruct (has_unknown_dev_features features);
    by rewrite <- ?app_assoc, ?app_nil_r.
Qed.

Lemma unknown_line_no_separator (present : bool) (label rest : string) :
  writes_of ("," +:+ nl)
    (unknown_line present (String " "%char label +:+ rest)) = 0
  /\ writes_of nl (unknown_line present (String " "%char label +:+ rest)) = 0.
Proof.
  destruct present; [|done].
  unfold unknown_line. rewrite !writes_of_cons.
  rewrite !bool_decide_eq_false_2 by discriminate. done.
Qed.

(** Counts the writes of a separator in what a list printer has
    written: the parts are the lists, the newlines and the line of the
    unknown bits. *)
Ltac count_writes :=
  rewrite ?writes_of_app;
  rewrite ?(proj1 (separated_separators _)), ?(proj2 (separated_separators _));
  rewrite ?(proj1 (unknown_line_no_separator _ _ _)),
          ?(proj2 (unknown_line_no_separator _ _ _));
  change (writes_of ("," +:+ nl) [nl]) with 0;
  change (writes_of nl [nl]) with 1;
  change (writes_of ("," +:+ nl) []) with 0;
  change (writes_of nl []) with 0;
  lia.

(** C7: a virtio list printer given a list of [n > 0] strings writes
    the elements with [",\n"] between two of them, [n - 1] times in
    all, and one ["\n"] after the last.  [hmp_virtio_dump_features]
    does so for each of its two lists, whatever the other list holds:
    the second list is printed in full after the newline of the first,
    an empty first list included, and when the second list is empty
    nothing at all is written for it, the newline included. *)
Theorem virtio_list_printers_separate :
  (forall (mon : Monitor) (pcol : VhostDeviceProtocols),
     protocols pcol <> [] ->
     hmp_virtio_dump_protocols mon pcol
     = mon ++ separated (protocols pcol) ++ [nl]
       ++ unknown_line (has_unknown_protocols pcol)
            ("  unknown-protocols(0x" +:+ fmt_016x64 (unknown_protocols pcol)
             +:+ ")" +:+ nl)
     /\ writes_of ("," +:+ nl) (hmp_virtio_dump_protocols [] pcol)
        = length (protocols pcol) - 1
     /\ writes_of nl (hmp_virtio_dump_protocols [] pcol) = 1)
  /\ (forall (mon : Monitor) (status : VirtioDeviceStatus),
        statuses status <> [] ->
        hmp_virtio_dump_status mon status
        = mon ++ separated (statuses status) ++ [nl]
          ++ unknown_line (has_unknown_statuses status)
               ("  unknown-statuses(0x" +:+ fmt_016x32 (unknown_statuses status)
                +:+ ")" +:+ nl)
        /\ writes_of ("," +:+ nl) (hmp_virtio_dump_status [] status)
           = length (statuses status) - 1
        /\ writes_of nl (hmp_virtio_dump_status [] status) = 1)
  /\ (forall (mon : Monitor) (features : VirtioDeviceFeatures),
        dev_features features <> [] ->
        hmp_virtio_dump_features mon features
        = mon ++ separated (transports features) ++ [nl]
          ++ separated (dev_features features) ++ [nl]
          ++ unknown_line (has_unknown_dev_features features)
               ("  unknown-features(0x"
                +:+ fmt_016x64 (unknown_dev_features features) +:+ ")" +:+ nl)
        /\ writes_of ("," +:+ nl) (hmp_virtio_dump_features [] features)
           = (length (transports features) - 1)
             + (length (dev_features features) - 1)
        /\ writes_of nl (hmp_virtio_dump_features [] features) = 2)
  /\ (forall (mon : Monitor) (features : VirtioDeviceFeatures),
        dev_features features = [] ->
        hmp_virtio_dump_features mon features
        = mon ++ separated (transports features) ++ [nl]
          ++ unknown_line (has_unknown_dev_features features)
               ("  unknown-features(0x"
                +:+ fmt_016x64 (unknown_dev_features features) +:+ ")" +:+ nl)
        /\ writes_of ("," +:+ nl) (hmp_virtio_dump_features [] features)
           = length (transports features) - 1
        /\ writes_of nl (hmp_virtio_dump_features [] features) = 1)
  /\ (forall l : list string,
        l <> [] ->
        length (separated l) = 2 * length l - 1
        /\ (forall (i : nat) (value : string),
              l !! i = Some value ->
              separated l !! (2 * i) = Some (tab +:+ value))
        /\ (forall i : nat,
              S i < length l ->
              separated l !! (2 * i + 1) = Some ("," +:+ nl))).
Proof.
  split; [|split; [|split; [|split]]].
  - intros mon pcol _. split; [apply hmp_virtio_dump_protocols_writes|].
    rewrite hmp_virtio_dump_protocols_writes. split; count_writes.
  - intros mon status _. split; [apply hmp_virtio_dump_status_writes|].
    rewrite hmp_virtio_dump_status_writes. split; count_writes.
  - intros mon features Hd. rewrite !hmp_virtio_dump_features_writes.
    destruct (dev_features features) as [|d ds]; [done|].
    split; [by rewrite <- !app_assoc|]. split; count_writes.
  - intros mon features Hd. rewrite !hmp_virtio_dump_features_writes, Hd.
    split; [reflexivity|]. split; count_writes.
  - intros l _. split; [apply separated_length|].
    split; [apply separated_element|apply separated_separator].
Qed.

Lemma virtio_list_printers_separate_witness :
  let features :=
    {| transports := [];
       dev_features := ["VIRTIO_NET_F_CSUM"; "VIRTIO_NET_F_MAC"];
       has_unknown_dev_features := false; unknown_dev_features := 0 |} in
  hmp_virtio_dump_features [] features
  = [ nl; tab +:+ "VIRTIO_NET_F_CSUM"; "," +:+ nl;
      tab +:+ "VIRTIO_NET_F_MAC"; nl ]
  /\ writes_of ("," +:+ nl) (hmp_virtio_dump_features [] features) = 1
  /\ writes_of nl (hmp_virtio_dump_features [] features) = 2.
Proof.
  intros features.
  apply (proj1 (proj2 (proj2 virtio_list_printers_separate)) [] features).
  discriminate.
Defined.

(** C10: for an empty list a virtio list printer still writes its one
    ["\n"], a blank line, before the line of the unknown bits, if there
    is one: the newline does not depend on the list having elements. *)
Theorem virtio_list_printers_empty_list :
  (forall (mon : Monitor) (pcol : VhostDeviceProtocols),
     protocols pcol = [] ->
     hmp_virtio_dump_protocols mon pcol
     = mon ++ [nl]
       ++ unknown_line (has_unknown_protocols pcol)
            ("  unknown-protocols(0x" +:+ fmt_016x64 (unknown_protocols pcol)
             +:+ ")" +:+ nl)
     /\ writes_of nl (hmp_virtio_dump_protocols [] pcol) = 1)
  /\ (forall (mon : Monitor) (status : VirtioDeviceStatus),
        statuses status = [] ->
        hmp_virtio_dump_status mon status
        = mon ++ [nl]
          ++ unknown_line (has_unknown_statuses status)
               ("  unknown-statuses(0x" +:+ fmt_016x32 (unknown_statuses status)
                +:+ ")" +:+ nl)
        /\ writes_of nl (hmp_virtio_dump_status [] status) = 1)
  /\ (forall (mon : Monitor) (features : VirtioDeviceFeatures),
        transports features = [] -> dev_features features = [] ->
        hmp_virtio_dump_features mon features
        = mon ++ [nl]
          ++ unknown_line (has_unknown_dev_features features)
               ("  unknown-features(0x"
                +:+ fmt_016x64 (unknown_dev_features features) +:+ ")" +:+ nl)
        /\ writes_of nl (hmp_virtio_dump_features [] features) = 1)
  /\ (forall (mon : Monitor) (features : VirtioDeviceFeatures),
        transports features = [] ->
        exists rest : list string,
          hmp_virtio_dump_features mon features = mon ++ nl :: rest).
Proof.
  split; [|split; [|split]].
  - intros mon pcol Hempty. split.
    + rewrite hmp_virtio_dump_protocols_writes. by rewrite Hempty.
    + rewrite hmp_virtio_dump_protocols_writes, Hempty. count_writes.
  - intros mon status Hempty. split.
    + rewrite hmp_virtio_dump_status_writes. by rewrite Hempty.
    + rewrite hmp_virtio_dump_status_writes, Hempty. count_writes.
  - intros mon features Ht Hd. split.
    + rewrite hmp_virtio_dump_features_writes. by rewrite Ht, Hd.
    + rewrite hmp_virtio_dump_features_writes, Ht, Hd. count_writes.
  - intros mon features Ht. rewrite hmp_virtio_dump_features_writes, Ht.
    eexists. reflexivity.
Qed.

Lemma virtio_list_printers_empty_list_witness :
  hmp_virtio_dump_status ["  status:" +:+ nl]
    {| statuses := []; has_unknown_statuses := true; unknown_statuses := 128 |}
  = ["  status:" +:+ nl] ++ [nl]
    ++ unknown_line true
         ("  unknown-statuses(0x" +:+ fmt_016x32 128 +:+ ")" +:+ nl)
  /\ writes_of nl
       (hmp_virtio_dump_status []
          {| statuses := []; has_unknown_statuses := true;
             unknown_statuses := 128 |}) = 1.
Proof.
  apply (proj1 (proj2 virtio_list_printers_empty_list)
           ["  status:" +:+ nl]
           {| statuses := []; has_unknown_statuses := true;
              unknown_statuses := 128 |}).
  reflexivity.
Defined.

(** ** The statistics filter builder *)

Section StatsFilterFacts.
Variable STATS_PROVIDER__MAX : nat.
Variable cpus : list CPUState.

Lemma provider_rounds (names : option string) (provider : StatsProvider)
    (idxs : list StatsProvider) (request_list : list StatsRequest) :
  fold_left (provider_round STATS_PROVIDER__MAX names provider) idxs request_list
  = rev (map (fun idx => new_request idx names)
           (List.filter (kept STATS_PROVIDER__MAX provider) idxs))
    ++ request_list.
Proof.
  revert request_list; induction idxs as [|idx idxs IH]; intros request_list;
    [reflexivity|].
  simpl fold_left. rewrite IH. unfold provider_round. simpl List.filter.
  destruct (kept STATS_PROVIDER__MAX provider idx); [|reflexivity].
  simpl. by rewrite <- app_assoc.
Qed.

Lemma request_provider_new_request (names : option string)
    (idxs : list StatsProvider) :
  map request_provider (map (fun idx => new_request idx names) idxs) = idxs.
Proof.
  induction idxs as [|idx idxs IH]; [reflexivity|]. simpl. rewrite IH.
  f_equal. unfold new_request. by destruct (names_chosen names).
Qed.

Lemma kept_all (idxs : list StatsProvider) :
  List.filter (kept STATS_PROVIDER__MAX STATS_PROVIDER__MAX) idxs = idxs.
Proof.
  induction idxs as [|idx idxs IH]; [reflexivity|]. simpl.
  unfold kept at 1. rewrite Nat.eqb_refl. simpl. by rewrite IH.
Qed.

Lemma kept_one (provider : StatsProvider) (start count : nat) :
  provider <> STATS_PROVIDER__MAX ->
  List.filter (kept STATS_PROVIDER__MAX provider) (seq start count)
  = if bool_decide (start <= provider < start + count) then [provider] else [].
Proof.
  intros Hsel. revert start; induction count as [|count IH]; intros start.
  - simpl. rewrite bool_decide_eq_false_2; [done|lia].
  - simpl. rewrite IH. unfold kept.
    rewrite (proj2 (Nat.eqb_neq _ _) Hsel). simpl.
    destruct (Nat.eqb_spec provider start) as [->|Hne].
    + rewrite bool_decide_eq_false_2 by lia.
      rewrite bool_decide_eq_true_2 by lia. done.
    + destruct (decide (S start <= provider < S start + count)).
      * rewrite !bool_decide_eq_true_2 by lia. done.
      * rewrite !bool_decide_eq_false_2 by lia. done.
Qed.

Lemma stats_filter_providers (target : StatsTarget) (names : option string)
    (cpu_index : Z) (provider : StatsProvider) :
  names <> None \/ provider <> STATS_PROVIDER__MAX ->
  has_providers
    (stats_filter STATS_PROVIDER__MAX cpus target names cpu_index provider)
  = true
  /\ providers
       (stats_filter STATS_PROVIDER__MAX cpus target names cpu_index provider)
     = rev (map (fun idx => new_request idx names)
              (List.filter (kept STATS_PROVIDER__MAX provider) (seq 0 STATS_PROVIDER__MAX))).
Proof.
  intros Hsel. unfold stats_filter.
  assert (negb (bool_decide (is_Some names))
          && (provider =? STATS_PROVIDER__MAX)%nat = false) as ->.
  { destruct Hsel as [Hn|Hp].
    - destruct names; [|done]. rewrite bool_decide_eq_true_2; [done|by eexists].
    - rewrite (proj2 (Nat.eqb_neq _ _) Hp). apply andb_false_r. }
  simpl. rewrite provider_rounds. by rewrite app_nil_r.
Qed.

Lemma stats_filter_bare (target : StatsTarget) (cpu_index : Z) :
  has_providers
    (stats_filter STATS_PROVIDER__MAX cpus target None cpu_index
       STATS_PROVIDER__MAX) = false
  /\ providers
       (stats_filter STATS_PROVIDER__MAX cpus target None cpu_index
          STATS_PROVIDER__MAX) = [].
Proof.
  unfold stats_filter. rewrite Nat.eqb_refl.
  rewrite bool_decide_eq_false_2 by (intros [? ?]; discriminate).
  by destruct target.
Qed.

Lemma new_request_names (idx : StatsProvider) (names : option string) :
  match names with
  | None => has_names (new_request idx names) = false
            /\ request_names (new_request idx names) = []
  | Some s =>
    if String.eqb s "*"
    then has_names (new_request idx names) = false
         /\ request_names (new_request idx names) = []
    else has_names (new_request idx names) = true
         /\ request_names (new_request idx names) = hmp_split_at_comma names
  end.
Proof.
  unfold new_request, names_chosen. destruct names as [s|]; [|done].
  by destruct (String.eqb s "*").
Qed.

End StatsFilterFacts.

(** C2: with no name selector and no provider selector the builder
    returns a filter that carries no request list.  Otherwise the
    filter carries a request list with exactly one request for every
    provider the provider selector keeps, that is for every provider
    when no provider is selected and for the selected provider alone
    otherwise; and the names of each request are unset when the name
    selector is absent or "*", and are the comma-split of the name
    selector otherwise. *)
Theorem stats_filter_requests (STATS_PROVIDER__MAX : nat) (cpus : list CPUState)
    (target : StatsTarget) (names : option string) (cpu_index : Z)
    (provider : StatsProvider) :
  let filter :=
    stats_filter STATS_PROVIDER__MAX cpus target names cpu_index provider in
  (names = None -> provider = STATS_PROVIDER__MAX ->
   has_providers filter = false /\ providers filter = [])
  /\ (names <> None \/ provider <> STATS_PROVIDER__MAX ->
      has_providers filter = true
      /\ (provider = STATS_PROVIDER__MAX ->
          map request_provider (providers filter)
          ≡ₚ seq 0 STATS_PROVIDER__MAX)
      /\ (provider < STATS_PROVIDER__MAX ->
          map request_provider (providers filter) = [provider])
      /\ Forall
           (fun request =>
              match names with
              | None =>
                has_names request = false /\ request_names request = []
              | Some s =>
                if String.eqb s "*"
                then has_names request = false /\ request_names request = []
                else has_names request = true
                     /\ request_names request = hmp_split_at_comma names
              end)
           (providers filter)).
Proof.
  intros filter. split.
  - intros -> ->. apply stats_filter_bare.
  - intros Hsel. subst filter.
    destruct (stats_filter_providers STATS_PROVIDER__MAX cpus target names
                cpu_index provider Hsel) as [Hhas ->].
    split; [exact Hhas|]. split; [|split].
    + intros ->. rewrite map_rev, request_provider_new_request, kept_all.
      symmetry. apply Permutation_rev.
    + intros Hlt. rewrite map_rev, request_provider_new_request.
      rewrite kept_one by lia.
      rewrite bool_decide_eq_true_2 by lia. reflexivity.
    + apply List.Forall_forall. intros request Hin.
      apply in_rev, in_map_iff in Hin as (idx & <- & _).
      apply new_request_names.
Qed.

Lemma stats_filter_requests_witness :
  map request_provider
    (providers (stats_filter 2 [] STATS_TARGET_VM (Some "*") (-1) 2))
  ≡ₚ seq 0 2.
Proof.
  apply (proj2 (stats_filter_requests 2 [] STATS_TARGET_VM (Some "*") (-1) 2));
    [left; discriminate|reflexivity].
Defined.

(** C9: the request list the builder attaches is in the reverse of the
    order in which the providers are enumerated, each request having
    been put in front of the earlier ones: with no provider selected
    the request of the provider of the highest index comes first and
    the request of provider 0 comes last. *)
Theorem stats_filter_requests_reversed (STATS_PROVIDER__MAX : nat)
    (cpus : list CPUState) (target : StatsTarget) (names : option string)
    (cpu_index : Z) (provider : StatsProvider) :
  names <> None \/ provider <> STATS_PROVIDER__MAX ->
  let filter :=
    stats_filter STATS_PROVIDER__MAX cpus target names cpu_index provider in
  map request_provider (providers filter)
  = rev (List.filter (kept STATS_PROVIDER__MAX provider)
           (seq 0 STATS_PROVIDER__MAX))
  /\ (provider = STATS_PROVIDER__MAX ->
      map request_provider (providers filter) = rev (seq 0 STATS_PROVIDER__MAX)
      /\ forall i : nat,
           i < STATS_PROVIDER__MAX ->
           map request_provider (providers filter) !! i
           = Some (STATS_PROVIDER__MAX - 1 - i)).
Proof.
  intros Hsel filter. subst filter.
  destruct (stats_filter_providers STATS_PROVIDER__MAX cpus target names
              cpu_index provider Hsel) as [_ ->].
  rewrite map_rev, request_provider_new_request.
  split; [reflexivity|]. intros ->. rewrite kept_all.
  split; [reflexivity|]. intros i Hi.
  rewrite rev_alt.
  change (rev_append (seq 0 STATS_PROVIDER__MAX) [])
    with (reverse (seq 0 STATS_PROVIDER__MAX)).
  rewrite reverse_lookup by (rewrite length_seq; lia).
  rewrite length_seq, lookup_seq_lt by lia. f_equal. lia.
Qed.

Lemma stats_filter_requests_reversed_witness :
  map request_provider
    (providers (stats_filter 2 [] STATS_TARGET_VM (Some "exits") (-1) 2))
  = rev (seq 0 2).
Proof.
  apply (stats_filter_requests_reversed 2 [] STATS_TARGET_VM (Some "exits")
           (-1) 2);
    [left; discriminate|reflexivity].
Defined.

(** ** The schema-value formatter *)

Lemma append_empty_r (s : string) : s +:+ EmptyString = s.
Proof.
  induction s as [|c s IH]; [reflexivity|].
  change (String c (s +:+ EmptyString) = String c s). by rewrite IH.
Qed.

Lemma append_assoc (s t u : string) : (s +:+ t) +:+ u = s +:+ (t +:+ u).
Proof.
  induction s as [|c s IH]; [reflexivity|].
  change (String c ((s +:+ t) +:+ u) = String c (s +:+ (t +:+ u))).
  by rewrite IH.
Qed.

Lemma monitor_text_cons (text : string) (mon : Monitor) :
  monitor_text (text :: mon) = text +:+ monitor_text mon.
Proof.
  unfold monitor_text. destruct mon as [|t mon].
  - symmetry. apply append_empty_r.
  - reflexivity.
Qed.

Lemma si_exponent_true (value : StatsSchemaValue) :
  si_exponent value = true
  <-> (base value = 10 /\ -18 <= exponent value <= 18
       /\ (3 | exponent value))%Z.
Proof.
  unfold si_exponent. rewrite !andb_true_iff, !Z.eqb_eq, !Z.leb_le.
  rewrite (Z.rem_divide _ 3) by lia. tauto.
Qed.

Lemma iec_exponent_true (value : StatsSchemaValue) :
  iec_exponent value = true
  <-> (base value = 2 /\ 0 <= exponent value <= 60
       /\ (10 | exponent value))%Z.
Proof.
  unfold iec_exponent. rewrite !andb_true_iff, !Z.eqb_eq, !Z.leb_le.
  rewrite (Z.rem_divide _ 10) by lia. tauto.
Qed.

Section SchemaValueFormatter.
Variable StatsType_str : StatsType -> string.
Variable StatsUnit_str : StatsUnit -> string.
Variable si_prefix : Z -> string.
Variable iec_binary_prefix : Z -> string.

Lemma print_stats_schema_value_exponential (mon : Monitor)
    (value : StatsSchemaValue) :
  exponent value <> 0%Z ->
  si_exponent value = false -> iec_exponent value = false ->
  print_stats_schema_value StatsType_str StatsUnit_str si_prefix
    iec_binary_prefix mon value
  = mon
    ++ [ schema_value_head StatsType_str value;
         exponential value
         +:+ (if has_unit value then " " else EmptyString) ]
    ++ (if has_unit value then [StatsUnit_str (ssv_unit value)] else [])
    ++ bucket_tail value ++ [")"].
Proof.
  intros He Hsi Hiec. unfold print_stats_schema_value, bucket_tail, exponential.
  rewrite Hsi, Hiec, !andb_false_r.
  rewrite (proj2 (negb_true_iff _) (proj2 (Z.eqb_neq _ _) He)).
  unfold monitor_printf, monitor_puts. rewrite !append_assoc.
  destruct (has_unit value);
    destruct (bool_decide (ssv_type value = STATS_TYPE_LINEAR_HISTOGRAM)
              && has_bucket_size value);
    simpl; by rewrite <- ?app_assoc.
Qed.

Lemma print_stats_schema_value_plain_unit (value : StatsSchemaValue) :
  si_prefix 0 = EmptyString -> iec_binary_prefix 0 = EmptyString ->
  has_unit value = true -> exponent value = 0%Z ->
  monitor_text
    (print_stats_schema_value StatsType_str StatsUnit_str si_prefix
       iec_binary_prefix [] value)
  = schema_value_head StatsType_str value
    +:+ unit_text StatsUnit_str value
    +:+ monitor_text (bucket_tail value) +:+ ")".
Proof.
  intros Hsi Hiec Hunit He.
  unfold print_stats_schema_value, bucket_tail, unit_text, unit_letter,
    si_exponent, iec_exponent.
  rewrite Hunit, He, Hsi, Hiec.
  generalize (schema_value_head StatsType_str value) as h. intros h.
  unfold monitor_printf, monitor_puts.
  destruct (ssv_unit value); simpl;
    destruct (base value =? 10)%Z; simpl;
    destruct (base value =? 2)%Z; simpl;
    destruct (bool_decide (ssv_type value = STATS_TYPE_LINEAR_HISTOGRAM)
              && has_bucket_size value);
    simpl; rewrite ?monitor_text_cons;
    change (monitor_text []) with EmptyString;
    rewrite ?append_empty_r, ?append_assoc; reflexivity.
Qed.
End SchemaValueFormatter.

(** C5: the formatter writes the separator [", "] after the type name
    exactly when the entry has a unit or a non-zero exponent.  An entry
    with a unit and exponent 0 shows the unit alone, as its letter or
    as its name.  A non-zero exponent that fits neither the SI
    condition (base 10, exponent in [-18, 18] and a multiple of 3) nor
    the IEC condition (base 2, exponent in [0, 60] and a multiple of 10),
    exponent 7 for one, is written as ["* <base>^<exponent>"], the unit
    letter is dropped and the unit, if there is one, follows by name. *)
Theorem print_stats_schema_value_suffix
    (StatsType_str : StatsType -> string) (StatsUnit_str : StatsUnit -> string)
    (si_prefix iec_binary_prefix : Z -> string) :
  si_prefix 0%Z = EmptyString -> iec_binary_prefix 0%Z = EmptyString ->
  forall value : StatsSchemaValue,
    (forall mon : Monitor, exists rest : list string,
       print_stats_schema_value StatsType_str StatsUnit_str si_prefix
         iec_binary_prefix mon value
       = mon ++ schema_value_head StatsType_str value :: rest)
    /\ (has_unit value = true \/ exponent value <> 0%Z ->
        schema_value_head StatsType_str value
        = "    " +:+ ssv_name value +:+ " ("
          +:+ StatsType_str (ssv_type value) +:+ ", ")
    /\ (has_unit value = false /\ exponent value = 0%Z ->
        schema_value_head StatsType_str value
        = "    " +:+ ssv_name value +:+ " ("
          +:+ StatsType_str (ssv_type value))
    /\ (has_unit value = true -> exponent value = 0%Z ->
        monitor_text
          (print_stats_schema_value StatsType_str StatsUnit_str si_prefix
             iec_binary_prefix [] value)
        = schema_value_head StatsType_str value
          +:+ unit_text StatsUnit_str value
          +:+ monitor_text (bucket_tail value) +:+ ")")
    /\ (exponent value <> 0%Z ->
        ~ (base value = 10 /\ -18 <= exponent value <= 18
           /\ (3 | exponent value))%Z ->
        ~ (base value = 2 /\ 0 <= exponent value <= 60
           /\ (10 | exponent value))%Z ->
        forall mon : Monitor,
          print_stats_schema_value StatsType_str StatsUnit_str si_prefix
            iec_binary_prefix mon value
          = mon
            ++ [ schema_value_head StatsType_str value;
                 exponential value
                 +:+ (if has_unit value then " " else EmptyString) ]
            ++ (if has_unit value then [StatsUnit_str (ssv_unit value)] else [])
            ++ bucket_tail value ++ [")"])
    /\ (exponent value = 7%Z ->
        forall mon : Monitor,
          print_stats_schema_value StatsType_str StatsUnit_str si_prefix
            iec_binary_prefix mon value
          = mon
            ++ [ schema_value_head StatsType_str value;
                 "* " +:+ fmt_d (base value) +:+ "^7"
                 +:+ (if has_unit value then " " else EmptyString) ]
            ++ (if has_unit value then [StatsUnit_str (ssv_unit value)] else [])
            ++ bucket_tail value ++ [")"]).
Proof.
  intros Hsi Hiec value.
  assert (Hexp : exponent value <> 0%Z ->
          ~ (base value = 10 /\ -18 <= exponent value <= 18
             /\ (3 | exponent value))%Z ->
          ~ (base value = 2 /\ 0 <= exponent value <= 60
             /\ (10 | exponent value))%Z ->
          forall mon : Monitor,
            print_stats_schema_value StatsType_str StatsUnit_str si_prefix
              iec_binary_prefix mon value
            = mon
              ++ [ schema_value_head StatsType_str value;
                   exponential value
                   +:+ (if has_unit value then " " else EmptyString) ]
              ++ (if has_unit value then [StatsUnit_str (ssv_unit value)]
                  else [])
              ++ bucket_tail value ++ [")"]).
  { intros He Hnsi Hniec mon.
    apply print_stats_schema_value_exponential; [exact He| |].
    - destruct (si_exponent value) eqn:E; [|reflexivity].
      by apply si_exponent_true in E.
    - destruct (iec_exponent value) eqn:E; [|reflexivity].
      by apply iec_exponent_true in E. }
  split; [|split; [|split; [|split; [|split]]]].
  - intros mon. unfold print_stats_schema_value, monitor_printf, monitor_puts.
    destruct (bool_decide (is_Some (unit_letter value)) && si_exponent value);
      [|destruct (bool_decide (is_Some (unit_letter value))
                  && iec_exponent value);
        [|destruct (negb (exponent value =? 0)%Z)]];
      destruct (has_unit value);
      destruct (bool_decide (ssv_type value = STATS_TYPE_LINEAR_HISTOGRAM)
                && has_bucket_size value);
      eexists; rewrite <- ?app_assoc; simpl; reflexivity.
  - intros Hsep. unfold schema_value_head.
    assert (has_unit value || negb (exponent value =? 0)%Z = true) as ->;
      [|reflexivity].
    destruct Hsep as [-> | He]; [reflexivity|].
    rewrite (proj2 (Z.eqb_neq _ _) He). apply orb_true_r.
  - intros [Hu He]. unfold schema_value_head. rewrite Hu, He. simpl.
    by rewrite !append_empty_r.
  - apply print_stats_schema_value_plain_unit; assumption.
  - exact Hexp.
  - intros He mon. rewrite Hexp.
    + unfold exponential. rewrite He, !append_assoc. reflexivity.
    + rewrite He. discriminate.
    + rewrite He. intros (_ & _ & k & Hk). lia.
    + rewrite He. intros (_ & _ & k & Hk). lia.
Qed.

Lemma print_stats_schema_value_suffix_witness :
  let value :=
    {| ssv_name := "halt_wait_time"; ssv_type := STATS_TYPE_CUMULATIVE;
       has_unit := true; ssv_unit := STATS_UNIT_SECONDS;
       base := 10; exponent := 7;
       has_bucket_size := false; bucket_size := 0 |} in
  print_stats_schema_value StatsType_qapi_name StatsUnit_qapi_name
    si_prefix_table iec_binary_prefix_table [] value
  = [ "    halt_wait_time (cumulative, "; "* 10^7 "; "seconds"; ")" ].
Proof.
  intros value.
  apply (proj2 (proj2 (proj2 (proj2 (proj2
           (print_stats_schema_value_suffix StatsType_qapi_name
              StatsUnit_qapi_name si_prefix_table iec_binary_prefix_table
              eq_refl eq_refl value)))))
           eq_refl []).
Defined.

(** ** The statistics renderer *)

Section StatsRendererFacts.
Variable StatsType_str : StatsType -> string.
Variable StatsUnit_str : StatsUnit -> string.
Variable StatsProvider_str : StatsProvider -> string.
Variable si_prefix : Z -> string.
Variable iec_binary_prefix : Z -> string.

(** The forward search stops at the first entry of the name: what it
    has passed does not bear the name, and the cursor is left on the
    entry found. *)
Lemma find_schema_entry_first (name : string) (schema_value : StatsSchemaValue)
    (next : list StatsSchemaValue) (entry : StatsSchemaValue)
    (after : list StatsSchemaValue) :
  find_schema_entry name schema_value next = Some (entry, after) ->
  exists skipped : list StatsSchemaValue,
    schema_value :: next = skipped ++ entry :: after
    /\ ssv_name entry = name
    /\ Forall (fun v => ssv_name v <> name) skipped.
Proof.
  revert schema_value; induction next as [|v next IH]; intros schema_value;
    simpl; destruct (String.eqb name (ssv_name schema_value)) eqn:E.
  - intros [= <- <-]. exists []. apply String.eqb_eq in E. by repeat split.
  - discriminate.
  - intros [= <- <-]. exists []. apply String.eqb_eq in E. by repeat split.
  - intros Hfind. destruct (IH _ Hfind) as (skipped & Hcur & Hname & Hskip).
    exists (schema_value :: skipped). rewrite Hcur. repeat split; [done|].
    constructor; [|done]. apply String.eqb_neq in E. congruence.
Qed.

Lemma sublist_tail (A : Type) (x : A) (l k : list A) :
  x :: l `sublist_of` k -> l `sublist_of` k.
Proof.
  intros H. etrans; [|exact H]. by apply sublist_cons.
Qed.

(** A stat whose name the schema still holds from the cursor on is
    found, and the stats after it are still to be found after it. *)
Lemma find_schema_entry_sublist (name : string) (names : list string)
    (schema_value : StatsSchemaValue) (next : list StatsSchemaValue) :
  name :: names `sublist_of` map ssv_name (schema_value :: next) ->
  exists (entry : StatsSchemaValue) (after : list StatsSchemaValue),
    find_schema_entry name schema_value next = Some (entry, after)
    /\ names `sublist_of` map ssv_name after.
Proof.
  revert schema_value; induction next as [|v next IH]; intros schema_value Hsub;
    simpl; destruct (String.eqb name (ssv_name schema_value)) eqn:E.
  - eexists _, _. split; [reflexivity|].
    simpl in Hsub. apply sublist_cons_r in Hsub as [Hsub|(l' & [= _ <-] & Hsub)];
      [by apply sublist_nil_r in Hsub|done].
  - apply String.eqb_neq in E. simpl in Hsub.
    apply sublist_cons_r in Hsub as [Hsub|(l' & [= Hn _] & _)];
      [by apply sublist_nil_r in Hsub|congruence].
  - eexists _, _. split; [reflexivity|].
    apply sublist_cons_r in Hsub as [Hsub|(l' & [= _ <-] & Hsub)];
      [by apply sublist_tail in Hsub|done].
  - apply String.eqb_neq in E.
    apply sublist_cons_r in Hsub as [Hsub|(l' & [= Hn _] & _)];
      [by apply IH|congruence].
Qed.

(** A round that renders a stat leaves the cursor behind the entry it
    has rendered, which is the first of the name from the old cursor
    on. *)
Lemma loop_body_forward (mon mon' : Monitor) (stats : Stats)
    (cursor cursor' : list StatsSchemaValue) :
  loop_body StatsType_str StatsUnit_str si_prefix iec_binary_prefix
    mon stats cursor = Next mon' cursor' ->
  exists (skipped : list StatsSchemaValue) (entry : StatsSchemaValue),
    cursor = skipped ++ entry :: cursor'
    /\ ssv_name entry = stats_name stats
    /\ Forall (fun v => ssv_name v <> stats_name stats) skipped
    /\ mon' = print_stats_value
                (print_stats_schema_value StatsType_str StatsUnit_str si_prefix
                   iec_binary_prefix mon entry)
                (stats_value stats).
Proof.
  unfold loop_body. destruct cursor as [|schema_value next]; [discriminate|].
  destruct (find_schema_entry _ _ _) as [[entry after]|] eqn:Hfind;
    [|discriminate].
  intros [= <- <-].
  destruct (find_schema_entry_first _ _ _ _ _ Hfind)
    as (skipped & Hcur & Hname & Hskip).
  by exists skipped, entry.
Qed.

Lemma for_loop_renders (mon : Monitor) (stats_list : list Stats)
    (schema_value_list : list StatsSchemaValue) :
  map stats_name stats_list `sublist_of` map ssv_name schema_value_list ->
  exists entries : list StatsSchemaValue,
    entries `sublist_of` schema_value_list
    /\ Forall2 (fun stats entry => stats_name stats = ssv_name entry)
         stats_list entries
    /\ for_loop StatsType_str StatsUnit_str si_prefix iec_binary_prefix
         mon stats_list schema_value_list
       = (render_all StatsType_str StatsUnit_str si_prefix iec_binary_prefix
            mon stats_list entries,
          Rendered).
Proof.
  revert mon schema_value_list;
    induction stats_list as [|stats stats_next IH];
    intros mon schema_value_list Hsub.
  - exists []. repeat split; [apply sublist_nil_l|constructor].
  - destruct schema_value_list as [|schema_value next];
      [by apply sublist_nil_r in Hsub|].
    destruct (find_schema_entry_sublist _ _ _ _ Hsub)
      as (entry & after & Hfind & Hrest).
    destruct (find_schema_entry_first _ _ _ _ _ Hfind)
      as (skipped & Hcur & Hname & _).
    destruct (IH (print_stats_value
                    (print_stats_schema_value StatsType_str StatsUnit_str
                       si_prefix iec_binary_prefix mon entry)
                    (stats_value stats)) after Hrest)
      as (entries & Hentries & Hnames & Hloop).
    exists (entry :: entries). split; [|split].
    + rewrite Hcur. apply sublist_inserts_l. by apply sublist_skip.
    + by constructor.
    + simpl. rewrite Hfind. exact Hloop.
Qed.

End StatsRendererFacts.

(** What the renderer writes for a stat, write by write. *)

Lemma print_stats_list_writes (mon : Monitor) (l : list Z) (i : Z) :
  print_stats_list mon l i
  = mon ++ imap (fun k value =>
                   "[" +:+ fmt_d (i + Z.of_nat k) +:+ "]="
                   +:+ fmt_d64 value +:+ " ") l.
Proof.
  revert mon i; induction l as [|value next IH]; intros mon i.
  - simpl. by rewrite app_nil_r.
  - simpl. rewrite IH. unfold monitor_printf. rewrite <- app_assoc. simpl.
    rewrite Z.add_0_r. do 2 f_equal.
    apply imap_ext. intros k v _. simpl. do 3 f_equal. lia.
Qed.

Section RenderedStatFacts.
Variable StatsType_str : StatsType -> string.
Variable StatsUnit_str : StatsUnit -> string.
Variable si_prefix : Z -> string.
Variable iec_binary_prefix : Z -> string.

Lemma print_stats_schema_value_writes (mon : Monitor)
    (entry : StatsSchemaValue) :
  print_stats_schema_value StatsType_str StatsUnit_str si_prefix
    iec_binary_prefix mon entry
  = mon ++ entry_writes StatsType_str StatsUnit_str si_prefix
             iec_binary_prefix entry.
Proof.
  unfold print_stats_schema_value, entry_writes, schema_value_head,
    unit_letter, si_exponent, iec_exponent, monitor_printf, monitor_puts.
  cbv zeta.
  destruct ((base entry =? 10)%Z && (-18 <=? exponent entry)%Z
            && (exponent entry <=? 18)%Z && (Z.rem (exponent entry) 3 =? 0)%Z);
    destruct ((base entry =? 2)%Z && (0 <=? exponent entry)%Z
              && (exponent entry <=? 60)%Z
              && (Z.rem (exponent entry) 10 =? 0)%Z);
    destruct (exponent entry =? 0)%Z;
    destruct (has_unit entry); destruct (ssv_unit entry);
    destruct (ssv_type entry); destruct (has_bucket_size entry);
    simpl; rewrite <- ?app_assoc; reflexivity.
Qed.

Lemma print_stats_value_writes (mon : Monitor) (value : StatsValue) :
  print_stats_value mon value = mon ++ value_writes value.
Proof.
  destruct value as [scalar|boolean|l|]; unfold print_stats_value, value_writes,
    monitor_printf; [reflexivity|reflexivity| |by rewrite app_nil_r].
  rewrite print_stats_list_writes, <- !app_assoc. do 3 f_equal.
  apply imap_ext. intros k v _. cbv beta. by rewrite (Z.add_comm 1).
Qed.

Lemma render_all_writes (mon : Monitor) (stats_list : list Stats)
    (entries : list StatsSchemaValue) :
  render_all StatsType_str StatsUnit_str si_prefix iec_binary_prefix
    mon stats_list entries
  = mon ++ concat (zip_with
                     (stat_writes StatsType_str StatsUnit_str si_prefix
                        iec_binary_prefix)
                     stats_list entries).
Proof.
  revert mon entries; induction stats_list as [|stats stats_next IH];
    intros mon entries; [simpl; by rewrite app_nil_r|].
  destruct entries as [|entry entries_next]; [simpl; by rewrite app_nil_r|].
  cbn [render_all zip_with concat].
  rewrite IH, print_stats_value_writes, print_stats_schema_value_writes.
  unfold stat_writes at 2. by rewrite <- !app_assoc.
Qed.
End RenderedStatFacts.

(** C1: when the names of the stats of a result are, in their order, a
    subsequence of the names of the schema's value list, the renderer
    renders every stat: behind what the sink held, and behind the line
    of the provider when that is asked for, the sink holds for every
    stat, in the order of the stats, the writes of a schema entry of
    its name (name, type, unit and bucket size) and then the writes of
    its value (": <n>" and a newline for a number, ": yes" or ": no"
    and a newline for a boolean, ": ", an item "[i]=<n> " for every
    element numbered from 1 and a newline for a list, nothing for any
    other kind), and nothing else; the entries are taken from the
    schema in its order.  The renderer never reports a missing schema
    entry and never reads past the end of the schema.  In every round
    of its loop that renders a stat the schema cursor only moves
    forward: it ends behind the entry rendered, the first of that name
    from where it stood, so that it has advanced by at least one entry
    and has never gone back. *)
Theorem print_stats_results_renders_all
    (StatsType_str : StatsType -> string) (StatsUnit_str : StatsUnit -> string)
    (StatsProvider_str : StatsProvider -> string)
    (si_prefix iec_binary_prefix : Z -> string)
    (mon : Monitor) (target : StatsTarget) (show_provider : bool)
    (result : StatsResult) (schema : list StatsSchema) :
  let schema_value_list :=
    find_schema_value_list schema (result_provider result) target in
  let printed :=
    print_stats_results StatsType_str StatsUnit_str StatsProvider_str
      si_prefix iec_binary_prefix mon target show_provider result schema in
  map stats_name (result_stats result)
    `sublist_of` map ssv_name schema_value_list ->
  (exists entries : list StatsSchemaValue,
     entries `sublist_of` schema_value_list
     /\ Forall2 (fun stats entry => stats_name stats = ssv_name entry)
          (result_stats result) entries
     /\ (schema_value_list <> [] ->
         printed
         = (mon
            ++ (if show_provider
                then ["provider: "
                      +:+ StatsProvider_str (result_provider result) +:+ nl]
                else [])
            ++ concat
                 (zip_with
                    (fun stats entry =>
                       entry_writes StatsType_str StatsUnit_str si_prefix
                         iec_binary_prefix entry
                       ++ match stats_value stats with
                          | QTYPE_QNUM scalar =>
                            [": " +:+ fmt_d64 scalar +:+ nl]
                          | QTYPE_QBOOL boolean =>
                            [": " +:+ (if boolean then "yes" else "no")
                             +:+ nl]
                          | QTYPE_QLIST l =>
                            [": "]
                            ++ imap (fun k element =>
                                       "[" +:+ fmt_d (Z.of_nat k + 1) +:+ "]="
                                       +:+ fmt_d64 element +:+ " ") l
                            ++ [nl]
                          | QTYPE_other => []
                          end)
                    (result_stats result) entries),
            Rendered)))
  /\ snd printed <> NoSchemaEntry
  /\ snd printed <> NullCursor
  /\ (forall (mon0 mon1 : Monitor) (stats : Stats)
             (cursor cursor' : list StatsSchemaValue),
        loop_body StatsType_str StatsUnit_str si_prefix iec_binary_prefix
          mon0 stats cursor = Next mon1 cursor' ->
        exists (skipped : list StatsSchemaValue) (entry : StatsSchemaValue),
          cursor = skipped ++ entry :: cursor'
          /\ ssv_name entry = stats_name stats
          /\ Forall (fun v => ssv_name v <> stats_name stats) skipped
          /\ cursor' = drop (S (length skipped)) cursor).
Proof.
  intros schema_value_list printed Hsub.
  assert (Hheader :
    schema_value_list <> [] ->
    printed
    = for_loop StatsType_str StatsUnit_str si_prefix iec_binary_prefix
        (mon ++ provider_header StatsProvider_str show_provider result)
        (result_stats result) schema_value_list).
  { intros Hne. subst printed. unfold print_stats_results.
    fold schema_value_list.
    destruct schema_value_list as [|v next]; [done|].
    unfold provider_header, monitor_printf.
    destruct show_provider; [reflexivity|by rewrite app_nil_r]. }
  destruct (for_loop_renders StatsType_str StatsUnit_str si_prefix
              iec_binary_prefix
              (mon ++ provider_header StatsProvider_str show_provider result)
              _ _ Hsub)
    as (entries & Hentries & Hnames & Hloop).
  assert (Hexit : schema_value_list = [] /\ snd printed = NoSchemaList
                  \/ snd printed = Rendered).
  { destruct schema_value_list as [|v next] eqn:E.
    - left. split; [done|]. subst printed. unfold print_stats_results.
      fold schema_value_list. by rewrite E.
    - right. rewrite Hheader by done. by rewrite Hloop. }
  split; [|split; [|split]].
  - exists entries. split; [done|]. split; [done|].
    intros Hne. rewrite (Hheader Hne), Hloop, render_all_writes.
    rewrite <- app_assoc. reflexivity.
  - destruct Hexit as [[_ ->]| ->]; discriminate.
  - destruct Hexit as [[_ ->]| ->]; discriminate.
  - intros mon0 mon1 stats cursor cursor' Hround.
    destruct (loop_body_forward _ _ _ _ _ _ _ _ _ Hround)
      as (skipped & entry & Hcur & Hname & Hskip & _).
    exists skipped, entry. repeat split; [done..|].
    rewrite Hcur.
    change (skipped ++ entry :: cursor') with (skipped ++ [entry] ++ cursor').
    rewrite app_assoc, drop_app_length'; [done|].
    rewrite length_app. simpl. lia.
Qed.

Lemma print_stats_results_renders_all_witness :
  let schema :=
    [ {| schema_provider := 0; schema_target := STATS_TARGET_VM;
         schema_stats :=
           [ {| ssv_name := "exits"; ssv_type := STATS_TYPE_CUMULATIVE;
                has_unit := false; ssv_unit := STATS_UNIT_BYTES;
                base := 0; exponent := 0;
                has_bucket_size := false; bucket_size := 0 |};
             {| ssv_name := "halt_exits"; ssv_type := STATS_TYPE_CUMULATIVE;
                has_unit := false; ssv_unit := STATS_UNIT_BYTES;
                base := 0; exponent := 0;
                has_bucket_size := false; bucket_size := 0 |};
             {| ssv_name := "blocked"; ssv_type := STATS_TYPE_INSTANT;
                has_unit := true; ssv_unit := STATS_UNIT_BOOLEAN;
                base := 0; exponent := 0;
                has_bucket_size := false; bucket_size := 0 |};
             {| ssv_name := "halt_wait_hist";
                ssv_type := STATS_TYPE_LINEAR_HISTOGRAM;
                has_unit := true; ssv_unit := STATS_UNIT_SECONDS;
                base := 10; exponent := -9;
                has_bucket_size := true; bucket_size := 100 |} ] |} ] in
  let result :=
    {| result_provider := 0;
       result_stats :=
         [ {| stats_name := "exits"; stats_value := QTYPE_QNUM 12345 |};
           {| stats_name := "blocked"; stats_value := QTYPE_QBOOL true |};
           {| stats_name := "halt_wait_hist";
              stats_value := QTYPE_QLIST [7; 0; 2]%Z |} ] |} in
  print_stats_results StatsType_qapi_name StatsUnit_qapi_name
    (fun _ => "kvm") si_prefix_table iec_binary_prefix_table
    [] STATS_TARGET_VM true result schema
  = ( [ "provider: kvm" +:+ nl;
        "    exits (cumulative"; ")"; ": 12345" +:+ nl;
        "    blocked (instant, "; "boolean"; ")"; ": yes" +:+ nl;
        "    halt_wait_hist (linear-histogram, "; "n"; "s";
        ", bucket size=100"; ")";
        ": "; "[1]=7 "; "[2]=0 "; "[3]=2 "; nl ],
      Rendered ).
Proof.
  intros schema result.
  assert (Hsub :
    map stats_name (result_stats result)
      `sublist_of` map ssv_name
                     (find_schema_value_list schema (result_provider result)
                        STATS_TARGET_VM)).
  { vm_compute. apply sublist_skip, sublist_cons, sublist_skip,
      sublist_skip, sublist_nil. }
  destruct (proj1 (print_stats_results_renders_all StatsType_qapi_name
                     StatsUnit_qapi_name (fun _ => "kvm") si_prefix_table
                     iec_binary_prefix_table [] STATS_TARGET_VM true result
                     schema Hsub))
    as (entries & Hentries & Hnames & Hprinted).
  rewrite Hprinted by discriminate. clear Hprinted Hsub.
  simpl in Hentries, Hnames.
  repeat match goal with
         | H : Forall2 _ _ _ |- _ => inversion H; clear H; subst
         end.
  repeat match goal with
         | H : sublist _ _ |- _ => inversion H; clear H; subst
         end; simpl in *; try discriminate; reflexivity.
Defined.

(** ** Errors of the management API *)

Lemma hmp_handle_error_line (err : Error) (w : World) :
  hmp_handle_error (Some err) w
  = (true,
     {| sink := sink w ++ ["Error: " +:+ error_get_pretty err +:+ nl];
        released := released w ++ [err] |}).
Proof. reflexivity. Qed.

Section InfoStatsErrors.
Variable STATS_PROVIDER__MAX : nat.
Variable cpus : list CPUState.
Variable StatsType_str : StatsType -> string.
Variable StatsUnit_str : StatsUnit -> string.
Variable StatsProvider_str : StatsProvider -> string.
Variable si_prefix : Z -> string.
Variable iec_binary_prefix : Z -> string.
Variable StatsTarget_parse : string -> reply StatsTarget.
Variable StatsProvider_parse : string -> reply StatsProvider.
Variable qmp_query_stats_schemas :
  bool -> StatsProvider -> reply (list StatsSchema).
Variable qmp_query_stats : StatsFilter -> reply (list StatsResult).
Variable monitor_get_cpu_index : Z.

Lemma hmp_info_stats_schema_error (target_str : string)
    (provider_str names : option string) (target : StatsTarget)
    (provider : StatsProvider) (err : Error) (w : World) :
  StatsTarget_parse target_str = Ok target ->
  match provider_str with
  | Some str => StatsProvider_parse str
  | None => Ok STATS_PROVIDER__MAX
  end = Ok provider ->
  qmp_query_stats_schemas (bool_decide (is_Some provider_str)) provider
  = Fail err ->
  hmp_info_stats STATS_PROVIDER__MAX cpus StatsType_str StatsUnit_str
    StatsProvider_str si_prefix iec_binary_prefix StatsTarget_parse
    StatsProvider_parse qmp_query_stats_schemas qmp_query_stats
    monitor_get_cpu_index target_str provider_str names w
  = Some {| sink := sink w ++ [error_get_pretty err +:+ nl];
            released := released w ++ [err] |}.
Proof.
  intros Ht Hp Hs. unfold hmp_info_stats. by rewrite Ht, Hp, Hs.
Qed.

Lemma hmp_info_stats_query_error (target_str : string)
    (provider_str names : option string) (target : StatsTarget)
    (provider : StatsProvider) (schema : list StatsSchema) (err : Error)
    (w : World) :
  StatsTarget_parse target_str = Ok target ->
  target <> STATS_TARGET__MAX ->
  match provider_str with
  | Some str => StatsProvider_parse str
  | None => Ok STATS_PROVIDER__MAX
  end = Ok provider ->
  qmp_query_stats_schemas (bool_decide (is_Some provider_str)) provider
  = Ok schema ->
  qmp_query_stats
    (stats_filter STATS_PROVIDER__MAX cpus target names
       (match target with
        | STATS_TARGET_VM => (-1)%Z
        | _ => monitor_get_cpu_index
        end)
       provider)
  = Fail err ->
  hmp_info_stats STATS_PROVIDER__MAX cpus StatsType_str StatsUnit_str
    StatsProvider_str si_prefix iec_binary_prefix StatsTarget_parse
    StatsProvider_parse qmp_query_stats_schemas qmp_query_stats
    monitor_get_cpu_index target_str provider_str names w
  = Some {| sink := sink w ++ [error_get_pretty err +:+ nl];
            released := released w ++ [err] |}.
Proof.
  intros Ht Hmax Hp Hs Hq. unfold hmp_info_stats. rewrite Ht, Hp, Hs.
  destruct target; [| |done]; by rewrite Hq.
Qed.
End InfoStatsErrors.

(** C3, as the claim words it, does not hold: [info stats] does not
    hand the error of its schema query to the error relay.  It prints
    the pretty description alone, where the relay would have printed it
    after "Error: ". *)
Lemma hmp_info_stats_bypasses_relay :
  let err := {| error_get_pretty := "no such provider" |} in
  let shim :=
    hmp_info_stats 2 [] StatsType_qapi_name StatsUnit_qapi_name
      (fun _ => "kvm") si_prefix_table iec_binary_prefix_table
      (fun _ => Ok STATS_TARGET_VM) (fun _ => Ok 0)
      (fun _ _ => Fail err) (fun _ => Ok []) 0
      "vm" None None world0 in
  shim = Some {| sink := ["no such provider" +:+ nl]; released := [err] |}
  /\ snd (hmp_handle_error (Some err) world0)
     = {| sink := ["Error: no such provider" +:+ nl]; released := [err] |}
  /\ shim <> Some (snd (hmp_handle_error (Some err) world0)).
Proof.
  intros err shim. split; [reflexivity|]. split; [reflexivity|].
  subst shim. vm_compute. discriminate.
Qed.

(** C3 (amended): the error relay prints an error as one line, "Error: "
    followed by its pretty description, frees the descriptor and
    returns true.  The handlers of exit-preconfig, cont, getfd, closefd
    and change, and the five virtio handlers, hand every error of the
    MAPI entry point they call to the relay.  [info stats] does not: an
    error of its schema query or of its stats query is printed as one
    line, the pretty description alone with no "Error: " before it, and
    the descriptor is freed; [info tpm] answers an error of its query
    with the line "TPM device not supported" and frees the descriptor. *)
Theorem mapi_errors_are_reported :
  (forall (err : Error) (w : World),
     hmp_handle_error (Some err) w
     = (true,
        {| sink := sink w ++ ["Error: " +:+ error_get_pretty err +:+ nl];
           released := released w ++ [err] |}))
  /\ (forall (err : Error) (w : World),
        hmp_exit_preconfig (Some err) w = snd (hmp_handle_error (Some err) w)
        /\ hmp_cont (Some err) w = snd (hmp_handle_error (Some err) w))
  /\ (forall (qmp_fd : string -> option Error) (fdname : string)
             (err : Error) (w : World),
        qmp_fd fdname = Some err ->
        hmp_getfd qmp_fd fdname w = snd (hmp_handle_error (Some err) w)
        /\ hmp_closefd qmp_fd fdname w = snd (hmp_handle_error (Some err) w))
  /\ (forall (CONFIG_VNC : bool)
             (hmp_change_vnc hmp_change_medium :
                string -> string -> option string -> option string -> bool ->
                World -> World * option Error)
             (device target : string) (arg read_only : option string)
             (force : bool) (err : Error) (w w' : World),
        (if CONFIG_VNC && String.eqb device "vnc"
         then hmp_change_vnc device target arg read_only force w
         else hmp_change_medium device target arg read_only force w)
        = (w', Some err) ->
        hmp_change CONFIG_VNC hmp_change_vnc hmp_change_medium
          device target arg read_only force w
        = snd (hmp_handle_error (Some err) w'))
  /\ (forall (err : Error) (w : World),
        hmp_virtio_query (Fail err) w = snd (hmp_handle_error (Some err) w))
  /\ (forall (qmp_x_query_virtio_status : string -> reply VirtioStatus)
             (path : string) (err : Error) (w : World),
        qmp_x_query_virtio_status path = Fail err ->
        hmp_virtio_status qmp_x_query_virtio_status path w
        = snd (hmp_handle_error (Some err) w))
  /\ (forall (qmp_x_query_virtio_vhost_queue_status :
                string -> Z -> reply VirtVhostQueueStatus)
             (path : string) (queue : Z) (err : Error) (w : World),
        qmp_x_query_virtio_vhost_queue_status path (sint 32 queue) = Fail err ->
        hmp_vhost_queue_status qmp_x_query_virtio_vhost_queue_status
          path queue w
        = snd (hmp_handle_error (Some err) w))
  /\ (forall (qmp_x_query_virtio_queue_status :
                string -> Z -> reply VirtQueueStatus)
             (path : string) (queue : Z) (err : Error) (w : World),
        qmp_x_query_virtio_queue_status path (sint 32 queue) = Fail err ->
        hmp_virtio_queue_status qmp_x_query_virtio_queue_status path queue w
        = snd (hmp_handle_error (Some err) w))
  /\ (forall (qmp_x_query_virtio_queue_element :
                string -> Z -> bool -> Z -> reply VirtioQueueElement)
             (path : string) (queue index : Z) (err : Error) (w : World),
        qmp_x_query_virtio_queue_element path (sint 32 queue)
          (negb (sint 32 index =? -1)%Z) (sint 32 index) = Fail err ->
        hmp_virtio_queue_element qmp_x_query_virtio_queue_element
          path queue index w
        = snd (hmp_handle_error (Some err) w))
  /\ (forall (STATS_PROVIDER__MAX : nat) (cpus : list CPUState)
             (StatsType_str : StatsType -> string)
             (StatsUnit_str : StatsUnit -> string)
             (StatsProvider_str : StatsProvider -> string)
             (si_prefix iec_binary_prefix : Z -> string)
             (StatsTarget_parse : string -> reply StatsTarget)
             (StatsProvider_parse : string -> reply StatsProvider)
             (qmp_query_stats_schemas :
                bool -> StatsProvider -> reply (list StatsSchema))
             (qmp_query_stats : StatsFilter -> reply (list StatsResult))
             (monitor_get_cpu_index : Z)
             (target_str : string) (provider_str names : option string)
             (target : StatsTarget) (provider : StatsProvider)
             (err : Error) (w : World),
        StatsTarget_parse target_str = Ok target ->
        match provider_str with
        | Some str => StatsProvider_parse str
        | None => Ok STATS_PROVIDER__MAX
        end = Ok provider ->
        (qmp_query_stats_schemas (bool_decide (is_Some provider_str)) provider
         = Fail err
         \/ target <> STATS_TARGET__MAX
            /\ (exists schema : list StatsSchema,
                  qmp_query_stats_schemas (bool_decide (is_Some provider_str))
                    provider = Ok schema)
            /\ qmp_query_stats
                 (stats_filter STATS_PROVIDER__MAX cpus target names
                    (match target with
                     | STATS_TARGET_VM => (-1)%Z
                     | _ => monitor_get_cpu_index
                     end)
                    provider)
               = Fail err) ->
        hmp_info_stats STATS_PROVIDER__MAX cpus StatsType_str StatsUnit_str
          StatsProvider_str si_prefix iec_binary_prefix StatsTarget_parse
          StatsProvider_parse qmp_query_stats_schemas qmp_query_stats
          monitor_get_cpu_index target_str provider_str names w
        = Some {| sink := sink w ++ [error_get_pretty err +:+ nl];
                  released := released w ++ [err] |})
  /\ (forall (TpmModel_str : TpmModel -> string)
             (TpmType_str : TpmType -> string) (err : Error) (w : World),
        hmp_info_tpm true (Fail err) TpmModel_str TpmType_str w
        = {| sink := sink w ++ ["TPM device not supported" +:+ nl];
             released := released w ++ [err] |}).
Proof.
  split; [exact hmp_handle_error_line|].
  split; [by intros|].
  split; [intros qmp_fd fdname err w Hfd;
          unfold hmp_getfd, hmp_closefd; by rewrite Hfd|].
  split; [intros ? ? ? ? ? ? ? ? ? ? ? Hchange;
          unfold hmp_change; by rewrite Hchange|].
  split; [by intros|].
  split; [intros q path err w Hq; unfold hmp_virtio_status; by rewrite Hq|].
  split; [intros q path queue err w Hq; unfold hmp_vhost_queue_status;
          by rewrite Hq|].
  split; [intros q path queue err w Hq; unfold hmp_virtio_queue_status;
          by rewrite Hq|].
  split; [intros q path queue index err w Hq;
          unfold hmp_virtio_queue_element; by rewrite Hq|].
  split; [|by intros].
  intros ? ? ? ? ? ? ? ? ? ? ? ? ? ? ? ? ? ? ? Ht Hp
    [Hs|(Hmax & [schema Hs] & Hq)].
  - by eapply hmp_info_stats_schema_error.
  - by eapply hmp_info_stats_query_error.
Qed.

Lemma mapi_errors_are_reported_witness :
  hmp_virtio_status
    (fun _ => Fail {| error_get_pretty := "Path /machine is not a VirtIODevice" |})
    "/machine" world0
  = snd (hmp_handle_error
           (Some {| error_get_pretty := "Path /machine is not a VirtIODevice" |})
           world0).
Proof.
  apply (proj1 (proj2 (proj2 (proj2 (proj2 (proj2
           mapi_errors_are_reported)))))
           (fun _ => Fail {| error_get_pretty :=
                               "Path /machine is not a VirtIODevice" |})).
  reflexivity.
Defined.

(** * Further properties of the handlers *)

(** ** The comma splitter, the other way round *)

Lemma pieces_first (delim : ascii) (s : string) :
  exists (p : string) (ps : list string), pieces delim s = p :: ps.
Proof.
  destruct s as [|c rest]; simpl; [by eexists _, _|].
  destruct (Ascii.eqb c delim); [by eexists _, _|].
  destruct (pieces delim rest); by eexists _, _.
Qed.

Lemma comma_join_pieces (s : string) : comma_join (pieces comma s) = s.
Proof.
  induction s as [|c rest IH]; [reflexivity|]. simpl.
  destruct (pieces_first comma rest) as (p & ps & Hp).
  rewrite Hp in IH |- *.
  destruct (Ascii.eqb_spec c comma) as [->|_].
  - change (comma_join (EmptyString :: p :: ps))
      with (String comma (comma_join (p :: ps))).
    by rewrite IH.
  - transitivity (String c (comma_join (p :: ps))); [|by rewrite IH].
    by destruct ps.
Qed.

Lemma pieces_length (s : string) : length (pieces comma s) = S (commas s).
Proof.
  induction s as [|c rest IH]; [reflexivity|]. simpl.
  destruct (pieces_first comma rest) as (p & ps & Hp).
  rewrite Hp in IH |- *.
  destruct (Ascii.eqb c comma); simpl in *; lia.
Qed.

Lemma pieces_comma_free (s : string) :
  Forall (fun p => comma_free p = true) (pieces comma s).
Proof.
  induction s as [|c rest IH]; [by repeat constructor|]. simpl.
  destruct (pieces_first comma rest) as (p & ps & Hp).
  rewrite Hp in IH |- *.
  destruct (Ascii.eqb c comma) eqn:Ec; [by constructor|].
  inversion IH as [|? ? Hfree Hrest]; subst.
  constructor; [|done]. simpl. by rewrite Ec.
Qed.

(** X1: joining what the splitter returns gives the string back, for
    every string, empty fields and all; a null string is read as the
    empty one. *)
Theorem comma_join_hmp_split_at_comma (str : option string) :
  comma_join (hmp_split_at_comma str) = default EmptyString str.
Proof.
  rewrite hmp_split_at_comma_unfold.
  destruct (default EmptyString str) as [|c rest] eqn:E; [reflexivity|].
  unfold g_strsplit. apply comma_join_pieces.
Qed.

(** X2: a non-empty string is split into one field more than it has
    commas, whatever stands between the commas, and the empty string
    into no field at all; no field holds a comma. *)
Theorem hmp_split_at_comma_fields (s : string) :
  length (hmp_split_at_comma (Some s))
  = (if nonempty s then S (commas s) else 0)
  /\ Forall (fun field => comma_free field = true)
       (hmp_split_at_comma (Some s)).
Proof.
  rewrite hmp_split_at_comma_unfold. simpl.
  destruct s as [|c rest]; [by split|].
  unfold g_strsplit, nonempty. split.
  - apply pieces_length.
  - apply pieces_comma_free.
Qed.

(** X3: the names a provider request carries are the name selector cut
    at its commas: joined again they give the selector as it was
    typed, in every request the builder makes for a selector other
    than "*". *)
Theorem stats_filter_names_rejoin (STATS_PROVIDER__MAX : nat)
    (cpus : list CPUState) (target : StatsTarget) (selector : string)
    (index : Z) (provider : StatsProvider) (request : StatsRequest) :
  selector <> "*" ->
  In request
     (providers
        (stats_filter STATS_PROVIDER__MAX cpus target (Some selector) index
           provider)) ->
  has_names request = true
  /\ comma_join (request_names request) = selector.
Proof.
  intros Hstar Hin.
  destruct (stats_filter_providers STATS_PROVIDER__MAX cpus target
              (Some selector) index provider) as [_ Hp]; [by left|].
  rewrite Hp in Hin.
  apply in_rev, in_map_iff in Hin as (idx & <- & _).
  unfold new_request, names_chosen.
  rewrite (proj2 (String.eqb_neq _ _) Hstar). simpl.
  split; [reflexivity|].
  rewrite hmp_split_at_comma_unfold. simpl.
  destruct selector as [|c rest]; [reflexivity|]. apply comma_join_pieces.
Qed.

Lemma stats_filter_names_rejoin_witness :
  let request :=
    {| request_provider := 0; has_names := true;
       request_names := ["exits"; "halt_poll_success_ns"] |} in
  has_names request = true
  /\ comma_join (request_names request) = "exits,halt_poll_success_ns".
Proof.
  intros request.
  apply (stats_filter_names_rejoin 2 [] STATS_TARGET_VM
           "exits,halt_poll_success_ns" (-1) 0 request).
  - discriminate.
  - left. reflexivity.
Defined.

(** ** The statistics renderer: when it renders, and how it gives up *)

Lemma find_schema_entry_reaches (name : string)
    (skipped : list StatsSchemaValue) (entry : StatsSchemaValue)
    (after : list StatsSchemaValue) (schema_value : StatsSchemaValue)
    (next : list StatsSchemaValue) :
  schema_value :: next = skipped ++ entry :: after ->
  Forall (fun v => ssv_name v <> name) skipped ->
  ssv_name entry = name ->
  find_schema_entry name schema_value next = Some (entry, after).
Proof.
  intros Hcur Hskip He. subst name. revert schema_value next Hcur.
  induction Hskip as [|v skipped Hv _ IH]; intros schema_value next Hcur;
    simpl in Hcur; injection Hcur as Hhead Hnext; subst schema_value next.
  - destruct after; simpl; by rewrite String.eqb_refl.
  - assert (String.eqb (ssv_name entry) (ssv_name v) = false) as Hneq
      by (apply String.eqb_neq; congruence).
    destruct skipped as [|v' skipped]; simpl; rewrite Hneq; by apply IH.
Qed.

Lemma find_schema_entry_absent (name : string) (schema_value : StatsSchemaValue)
    (next : list StatsSchemaValue) :
  Forall (fun v => ssv_name v <> name) (schema_value :: next) ->
  find_schema_entry name schema_value next = None.
Proof.
  revert schema_value; induction next as [|v next IH]; intros schema_value Hall;
    inversion Hall as [|? ? Hv Hrest]; subst; simpl;
    rewrite (proj2 (String.eqb_neq _ _) (not_eq_sym Hv)); [done|by apply IH].
Qed.

Section StatsRendererExits.
Variable StatsType_str : StatsType -> string.
Variable StatsUnit_str : StatsUnit -> string.
Variable StatsProvider_str : StatsProvider -> string.
Variable si_prefix : Z -> string.
Variable iec_binary_prefix : Z -> string.

Lemma for_loop_rendered_sublist (mon : Monitor) (stats_list : list Stats)
    (schema_value_list : list StatsSchemaValue) :
  snd (for_loop StatsType_str StatsUnit_str si_prefix iec_binary_prefix
         mon stats_list schema_value_list) = Rendered ->
  map stats_name stats_list `sublist_of` map ssv_name schema_value_list.
Proof.
  revert mon schema_value_list;
    induction stats_list as [|stats stats_next IH];
    intros mon schema_value_list; [intros _; apply sublist_nil_l|].
  simpl. unfold loop_body.
  destruct schema_value_list as [|schema_value next]; [discriminate|].
  destruct (find_schema_entry _ _ _) as [[entry after]|] eqn:Hfind;
    [|discriminate].
  intros Hexit. apply IH in Hexit.
  destruct (find_schema_entry_first _ _ _ _ _ Hfind)
    as (skipped & -> & <- & _).
  rewrite map_app. apply sublist_inserts_l. simpl. by apply sublist_skip.
Qed.

Lemma print_stats_results_exit (mon : Monitor) (target : StatsTarget)
    (show_provider : bool) (result : StatsResult) (schema : list StatsSchema) :
  within_schema schema target result ->
  snd (print_stats_results StatsType_str StatsUnit_str StatsProvider_str
         si_prefix iec_binary_prefix mon target show_provider result schema)
  = Rendered
  \/ snd (print_stats_results StatsType_str StatsUnit_str StatsProvider_str
            si_prefix iec_binary_prefix mon target show_provider result schema)
     = NoSchemaList.
Proof.
  unfold within_schema, print_stats_results. intros Hsub.
  destruct (find_schema_value_list schema (result_provider result) target)
    as [|v next] eqn:E; [by right|left].
  match goal with
  | |- snd (for_loop _ _ _ _ ?m _ _) = _ =>
    destruct (for_loop_renders StatsType_str StatsUnit_str si_prefix
                iec_binary_prefix m _ _ Hsub) as (entries & _ & _ & ->)
  end.
  reflexivity.
Qed.
End StatsRendererExits.

(** X4: the loop of the renderer runs to the end of the stats exactly
    when the names of the stats are, in their order, a subsequence of
    the names of the schema entries from the cursor on; a whole call
    renders the result exactly when, besides, the schema has a value
    list for the provider and target. *)
Theorem renderer_renders_iff
    (StatsType_str : StatsType -> string) (StatsUnit_str : StatsUnit -> string)
    (StatsProvider_str : StatsProvider -> string)
    (si_prefix iec_binary_prefix : Z -> string)
    (mon : Monitor) (target : StatsTarget) (show_provider : bool)
    (result : StatsResult) (schema : list StatsSchema) :
  (forall (stats_list : list Stats) (cursor : list StatsSchemaValue),
     snd (for_loop StatsType_str StatsUnit_str si_prefix iec_binary_prefix
            mon stats_list cursor) = Rendered
     <-> map stats_name stats_list `sublist_of` map ssv_name cursor)
  /\ (snd (print_stats_results StatsType_str StatsUnit_str StatsProvider_str
             si_prefix iec_binary_prefix mon target show_provider result schema)
      = Rendered
      <-> find_schema_value_list schema (result_provider result) target <> []
          /\ within_schema schema target result).
Proof.
  split.
  - intros stats_list cursor. split; [apply for_loop_rendered_sublist|].
    intros Hsub.
    destruct (for_loop_renders StatsType_str StatsUnit_str si_prefix
                iec_binary_prefix mon _ _ Hsub) as (entries & _ & _ & ->).
    reflexivity.
  - unfold within_schema, print_stats_results.
    destruct (find_schema_value_list schema (result_provider result) target)
      as [|v next] eqn:E.
    + split; [discriminate|]. by intros [? _].
    + split.
      * intros Hexit. split; [done|].
        by apply for_loop_rendered_sublist in Hexit.
      * intros [_ Hsub].
        match goal with
        | |- snd (for_loop _ _ _ _ ?m _ _) = _ =>
          destruct (for_loop_renders StatsType_str StatsUnit_str si_prefix
                      iec_binary_prefix m _ _ Hsub) as (entries & _ & _ & ->)
        end.
        reflexivity.
Qed.

(** X5: a stat whose name no schema entry bears from the cursor on
    ends the rendering of its result: the renderer writes "failed to
    find schema entry for" and the name, and renders none of the stats
    that follow. *)
Theorem renderer_missing_entry
    (StatsType_str : StatsType -> string) (StatsUnit_str : StatsUnit -> string)
    (si_prefix iec_binary_prefix : Z -> string)
    (mon : Monitor) (stats : Stats) (stats_next : list Stats)
    (schema_value : StatsSchemaValue) (next : list StatsSchemaValue) :
  Forall (fun v => ssv_name v <> stats_name stats) (schema_value :: next) ->
  for_loop StatsType_str StatsUnit_str si_prefix iec_binary_prefix
    mon (stats :: stats_next) (schema_value :: next)
  = (mon ++ ["failed to find schema entry for " +:+ stats_name stats +:+ nl],
     NoSchemaEntry).
Proof.
  intros Habsent. simpl.
  by rewrite (find_schema_entry_absent _ _ _ Habsent).
Qed.

Lemma renderer_missing_entry_witness :
  for_loop StatsType_qapi_name StatsUnit_qapi_name si_prefix_table
    iec_binary_prefix_table []
    [ {| stats_name := "halt_exits"; stats_value := QTYPE_QNUM 3 |};
      {| stats_name := "exits"; stats_value := QTYPE_QNUM 4 |} ]
    [ {| ssv_name := "exits"; ssv_type := STATS_TYPE_CUMULATIVE;
         has_unit := false; ssv_unit := STATS_UNIT_BYTES;
         base := 0; exponent := 0;
         has_bucket_size := false; bucket_size := 0 |} ]
  = (["failed to find schema entry for halt_exits" +:+ nl], NoSchemaEntry).
Proof.
  apply (renderer_missing_entry StatsType_qapi_name StatsUnit_qapi_name
           si_prefix_table iec_binary_prefix_table []
           {| stats_name := "halt_exits"; stats_value := QTYPE_QNUM 3 |}).
  repeat constructor. simpl. discriminate.
Defined.

(** X6: when a stat is matched by the last entry of the schema and
    another stat follows it, the renderer renders the first and then
    reads the entry of a NULL cursor: the loop steps the cursor past
    the last node and the next round dereferences it before any test. *)
Theorem renderer_null_cursor
    (StatsType_str : StatsType -> string) (StatsUnit_str : StatsUnit -> string)
    (si_prefix iec_binary_prefix : Z -> string)
    (mon : Monitor) (stats following : Stats) (rest : list Stats)
    (skipped : list StatsSchemaValue) (last : StatsSchemaValue) :
  Forall (fun v => ssv_name v <> stats_name stats) skipped ->
  ssv_name last = stats_name stats ->
  for_loop StatsType_str StatsUnit_str si_prefix iec_binary_prefix
    mon (stats :: following :: rest) (skipped ++ [last])
  = (print_stats_value
       (print_stats_schema_value StatsType_str StatsUnit_str si_prefix
          iec_binary_prefix mon last)
       (stats_value stats),
     NullCursor).
Proof.
  intros Hskip Hlast.
  destruct (skipped ++ [last]) as [|schema_value next] eqn:Hcur;
    [by destruct skipped|].
  simpl.
  by rewrite (find_schema_entry_reaches _ skipped last [] _ _
                (eq_sym Hcur) Hskip Hlast).
Qed.

Lemma renderer_null_cursor_witness :
  snd (for_loop StatsType_qapi_name StatsUnit_qapi_name si_prefix_table
         iec_binary_prefix_table []
         [ {| stats_name := "exits"; stats_value := QTYPE_QNUM 3 |};
           {| stats_name := "exits"; stats_value := QTYPE_QNUM 4 |} ]
         ([] ++ [ {| ssv_name := "exits"; ssv_type := STATS_TYPE_CUMULATIVE;
                     has_unit := false; ssv_unit := STATS_UNIT_BYTES;
                     base := 0; exponent := 0;
                     has_bucket_size := false; bucket_size := 0 |} ]))
  = NullCursor.
Proof.
  rewrite (renderer_null_cursor StatsType_qapi_name StatsUnit_qapi_name
             si_prefix_table iec_binary_prefix_table []
             {| stats_name := "exits"; stats_value := QTYPE_QNUM 3 |}
             {| stats_name := "exits"; stats_value := QTYPE_QNUM 4 |} [] []);
    [reflexivity|constructor|reflexivity].
Defined.

(** ** The values of a stat *)

Lemma sint_64_high (value : Z) :
  (2 ^ 63 <= value < 2 ^ 64)%Z -> sint 64 value = (value - 2 ^ 64)%Z.
Proof.
  intros Hv. unfold sint.
  replace (2 ^ (64 - 1))%Z with (2 ^ 63)%Z by reflexivity.
  rewrite <- (Z_mod_plus_full _ (-1)), Z.mod_small; lia.
Qed.

Lemma dec_negative (z : Z) : (0 < z)%Z -> dec (- z) = "-" +:+ dec z.
Proof. destruct z as [|p|p]; [lia| |lia]. intros _. reflexivity. Qed.

(** X7: a list value is written as ": ", then one item "[i]=v " for
    every element, the items numbered from 1 in the order of the list,
    then a newline; the empty list gives ": " and the newline alone. *)
Theorem print_stats_value_list (mon : Monitor) (l : list Z) :
  print_stats_value mon (QTYPE_QLIST l)
  = mon ++ [": "]
    ++ imap (fun k value =>
               "[" +:+ fmt_d (Z.of_nat k + 1) +:+ "]="
               +:+ fmt_d64 value +:+ " ") l
    ++ [nl]
  /\ length (print_stats_value mon (QTYPE_QLIST l)) = length mon + length l + 2.
Proof.
  assert (Hwrites :
    print_stats_value mon (QTYPE_QLIST l)
    = mon ++ [": "]
      ++ imap (fun k value =>
                 "[" +:+ fmt_d (Z.of_nat k + 1) +:+ "]="
                 +:+ fmt_d64 value +:+ " ") l
      ++ [nl]).
  { unfold print_stats_value, monitor_printf.
    rewrite print_stats_list_writes, <- !app_assoc. do 2 f_equal.
    f_equal. apply imap_ext. intros k v _. cbv beta.
    by rewrite (Z.add_comm 1). }
  split; [exact Hwrites|].
  rewrite Hwrites, !length_app, length_imap. simpl. lia.
Qed.

(** X8: the elements of a list value are unsigned 64-bit numbers
    written with a signed conversion: an element from 2^63 on is shown
    as the negative number 2^64 below it, a smaller one as it is. *)
Theorem print_stats_list_signed (mon : Monitor) (value i : Z) :
  ((2 ^ 63 <= value < 2 ^ 64)%Z ->
   print_stats_list mon [value] i
   = mon ++ ["[" +:+ fmt_d i +:+ "]=" +:+ ("-" +:+ dec (2 ^ 64 - value))
             +:+ " "])
  /\ ((0 <= value < 2 ^ 63)%Z ->
      print_stats_list mon [value] i
      = mon ++ ["[" +:+ fmt_d i +:+ "]=" +:+ dec value +:+ " "]).
Proof.
  split; intros Hv; unfold print_stats_list, monitor_printf, fmt_d64.
  - rewrite sint_64_high by exact Hv.
    replace (value - 2 ^ 64)%Z with (- (2 ^ 64 - value))%Z by lia.
    rewrite dec_negative by lia. reflexivity.
  - unfold sint. replace (2 ^ (64 - 1))%Z with (2 ^ 63)%Z by reflexivity.
    rewrite Z.mod_small by lia.
    replace (value + 2 ^ 63 - 2 ^ 63)%Z with value by lia. reflexivity.
Qed.

Lemma print_stats_list_signed_witness :
  print_stats_list [] [18446744073709551615%Z] 1 = ["[1]=-1 "].
Proof.
  apply (proj1 (print_stats_list_signed [] 18446744073709551615 1)).
  lia.
Defined.

(** ** The schema-value formatter: prefixes and units *)

Lemma monitor_text_app (m1 m2 : Monitor) :
  monitor_text (m1 ++ m2) = monitor_text m1 +:+ monitor_text m2.
Proof.
  induction m1 as [|text m1 IH]; [reflexivity|].
  change ((text :: m1) ++ m2) with (text :: (m1 ++ m2)).
  by rewrite !monitor_text_cons, IH, append_assoc.
Qed.

(** X9: for an entry in seconds or bytes whose exponent fits the SI
    condition the formatter writes the SI prefix of the exponent and
    the unit letter, and for one whose exponent fits the IEC condition
    the IEC prefix and the letter: type, separator, prefix, letter,
    the bucket size if any, and the closing parenthesis. *)
Theorem print_stats_schema_value_prefixed
    (StatsType_str : StatsType -> string) (StatsUnit_str : StatsUnit -> string)
    (si_prefix iec_binary_prefix : Z -> string) (value : StatsSchemaValue) :
  has_unit value = true ->
  ssv_unit value = STATS_UNIT_SECONDS \/ ssv_unit value = STATS_UNIT_BYTES ->
  ((base value = 10 /\ -18 <= exponent value <= 18
    /\ (3 | exponent value))%Z ->
   monitor_text
     (print_stats_schema_value StatsType_str StatsUnit_str si_prefix
        iec_binary_prefix [] value)
   = schema_value_head StatsType_str value
     +:+ si_prefix (exponent value) +:+ unit_text StatsUnit_str value
     +:+ monitor_text (bucket_tail value) +:+ ")")
  /\ ((base value = 2 /\ 0 <= exponent value <= 60
       /\ (10 | exponent value))%Z ->
      monitor_text
        (print_stats_schema_value StatsType_str StatsUnit_str si_prefix
           iec_binary_prefix [] value)
      = schema_value_head StatsType_str value
        +:+ iec_binary_prefix (exponent value)
        +:+ unit_text StatsUnit_str value
        +:+ monitor_text (bucket_tail value) +:+ ")").
Proof.
  intros Hunit Hletter.
  assert (Hsome : exists letter,
            unit_letter value = Some letter
            /\ unit_text StatsUnit_str value = letter).
  { unfold unit_letter, unit_text. rewrite Hunit.
    destruct Hletter as [-> | ->]; by eexists. }
  destruct Hsome as (letter & Hl & Ht). rewrite Ht.
  split.
  - intros Hsi. apply si_exponent_true in Hsi.
    unfold print_stats_schema_value, monitor_printf, monitor_puts, bucket_tail.
    rewrite Hl, Hsi, Hunit. simpl.
    destruct (bool_decide (ssv_type value = STATS_TYPE_LINEAR_HISTOGRAM)
              && has_bucket_size value);
      simpl; rewrite !monitor_text_cons;
      change (monitor_text []) with EmptyString;
      by rewrite ?append_empty_r.
  - intros Hiec.
    assert (Hsi : si_exponent value = false).
    { destruct (si_exponent value) eqn:E; [|done].
      apply si_exponent_true in E. lia. }
    apply iec_exponent_true in Hiec.
    unfold print_stats_schema_value, monitor_printf, monitor_puts, bucket_tail.
    rewrite Hl, Hsi, Hiec, Hunit. simpl.
    destruct (bool_decide (ssv_type value = STATS_TYPE_LINEAR_HISTOGRAM)
              && has_bucket_size value);
      simpl; rewrite !monitor_text_cons;
      change (monitor_text []) with EmptyString;
      by rewrite ?append_empty_r.
Qed.

Lemma print_stats_schema_value_prefixed_witness :
  let value :=
    {| ssv_name := "halt_poll_success_ns"; ssv_type := STATS_TYPE_CUMULATIVE;
       has_unit := true; ssv_unit := STATS_UNIT_SECONDS;
       base := 10; exponent := -9;
       has_bucket_size := false; bucket_size := 0 |} in
  monitor_text
    (print_stats_schema_value StatsType_qapi_name StatsUnit_qapi_name
       si_prefix_table iec_binary_prefix_table [] value)
  = "    halt_poll_success_ns (cumulative, ns)".
Proof.
  intros value.
  apply (proj1 (print_stats_schema_value_prefixed StatsType_qapi_name
                  StatsUnit_qapi_name si_prefix_table iec_binary_prefix_table
                  value eq_refl (or_introl eq_refl))).
  split; [reflexivity|]. split; [simpl; lia|]. exists (-3)%Z. reflexivity.
Defined.

(** X10: the prefixes are kept for seconds and bytes.  An entry with
    no unit, or in cycles or booleans, shows every non-zero exponent
    as ["* <base>^<exponent>"], one that fits the SI or the IEC
    condition too, followed by the name of the unit if it has one; and
    an entry with no unit and exponent 0 shows its type alone. *)
Theorem print_stats_schema_value_no_letter
    (StatsType_str : StatsType -> string) (StatsUnit_str : StatsUnit -> string)
    (si_prefix iec_binary_prefix : Z -> string)
    (mon : Monitor) (value : StatsSchemaValue) :
  has_unit value = false \/ ssv_unit value = STATS_UNIT_CYCLES
  \/ ssv_unit value = STATS_UNIT_BOOLEAN ->
  (exponent value <> 0%Z ->
   print_stats_schema_value StatsType_str StatsUnit_str si_prefix
     iec_binary_prefix mon value
   = mon
     ++ [ schema_value_head StatsType_str value;
          exponential value
          +:+ (if has_unit value then " " else EmptyString) ]
     ++ (if has_unit value then [StatsUnit_str (ssv_unit value)] else [])
     ++ bucket_tail value ++ [")"])
  /\ (has_unit value = false -> exponent value = 0%Z ->
      print_stats_schema_value StatsType_str StatsUnit_str si_prefix
        iec_binary_prefix mon value
      = mon
        ++ [ "    " +:+ ssv_name value +:+ " ("
             +:+ StatsType_str (ssv_type value) ]
        ++ bucket_tail value ++ [")"]).
Proof.
  intros Hletter.
  assert (Hnone : unit_letter value = None).
  { unfold unit_letter. destruct (has_unit value); [|done].
    destruct Hletter as [?|[-> | ->]]; done. }
  split.
  - intros He.
    unfold print_stats_schema_value, monitor_printf, monitor_puts, bucket_tail,
      exponential.
    rewrite Hnone. simpl.
    rewrite (proj2 (negb_true_iff _) (proj2 (Z.eqb_neq _ _) He)).
    rewrite !append_assoc.
    destruct (has_unit value);
      destruct (bool_decide (ssv_type value = STATS_TYPE_LINEAR_HISTOGRAM)
                && has_bucket_size value);
      simpl; by rewrite <- ?app_assoc.
  - intros Hunit He.
    unfold print_stats_schema_value, monitor_printf, monitor_puts, bucket_tail,
      schema_value_head.
    rewrite Hnone, Hunit, He. simpl. rewrite !append_empty_r.
    destruct (bool_decide (ssv_type value = STATS_TYPE_LINEAR_HISTOGRAM)
              && has_bucket_size value);
      simpl; by rewrite <- ?app_assoc.
Qed.

Lemma print_stats_schema_value_no_letter_witness :
  let value :=
    {| ssv_name := "cycles_spent"; ssv_type := STATS_TYPE_CUMULATIVE;
       has_unit := true; ssv_unit := STATS_UNIT_CYCLES;
       base := 10; exponent := 3;
       has_bucket_size := false; bucket_size := 0 |} in
  print_stats_schema_value StatsType_qapi_name StatsUnit_qapi_name
    si_prefix_table iec_binary_prefix_table [] value
  = [ "    cycles_spent (cumulative, "; "* 10^3 "; "cycles"; ")" ].
Proof.
  intros value.
  apply (proj1 (print_stats_schema_value_no_letter StatsType_qapi_name
                  StatsUnit_qapi_name si_prefix_table iec_binary_prefix_table
                  [] value (or_intror (or_introl eq_refl)))).
  discriminate.
Defined.

(** ** The descriptors of a queue element *)

Lemma monitor_text_single (text : string) : monitor_text [text] = text.
Proof. reflexivity. Qed.

Lemma print_desc_flags_text (mon : Monitor) (flag : list string) :
  monitor_text (print_desc_flags mon flag)
  = monitor_text mon +:+ String.concat ", " flag.
Proof.
  revert mon; induction flag as [|value [|value' next] IH]; intros mon.
  - simpl. by rewrite append_empty_r.
  - simpl. unfold monitor_printf. by rewrite monitor_text_app.
  - change (print_desc_flags mon (value :: value' :: next))
      with (print_desc_flags
              (monitor_printf (monitor_printf mon value) ", ")
              (value' :: next)).
    rewrite IH. unfold monitor_printf. rewrite !monitor_text_app.
    change (String.concat ", " (value :: value' :: next))
      with (value +:+ ", " +:+ String.concat ", " (value' :: next)).
    rewrite ?append_assoc. reflexivity.
Qed.

Lemma print_desc_text (mon : Monitor) (value : VirtioRingDesc) :
  monitor_text
    (let mon := monitor_printf mon
       ("        addr 0x" +:+ fmt_x64 (addr value) +:+ " len "
        +:+ fmt_d (len value)) in
     match desc_flags value with
     | [] => mon
     | flag =>
       let mon := monitor_printf mon " (" in
       let mon := print_desc_flags mon flag in
       monitor_printf mon ")"
     end)
  = monitor_text mon +:+ desc_text value.
Proof.
  unfold desc_text, monitor_printf. cbv zeta.
  destruct (desc_flags value) as [|flag flags].
  - rewrite monitor_text_app, monitor_text_single.
    by rewrite ?append_assoc, ?append_empty_r.
  - rewrite monitor_text_app, print_desc_flags_text, !monitor_text_app.
    rewrite !monitor_text_single, ?append_assoc. reflexivity.
Qed.

Lemma print_descs_text (mon : Monitor) (l : list VirtioRingDesc) :
  monitor_text (print_descs mon l)
  = monitor_text mon +:+ String.concat ("," +:+ nl) (map desc_text l).
Proof.
  revert mon; induction l as [|value [|value' next] IH]; intros mon.
  - simpl. by rewrite append_empty_r.
  - simpl print_descs. apply print_desc_text.
  - change (print_descs mon (value :: value' :: next))
      with (print_descs
              (monitor_printf
                 (let mon := monitor_printf mon
                    ("        addr 0x" +:+ fmt_x64 (addr value) +:+ " len "
                     +:+ fmt_d (len value)) in
                  match desc_flags value with
                  | [] => mon
                  | flag =>
                    let mon := monitor_printf mon " (" in
                    let mon := print_desc_flags mon flag in
                    monitor_printf mon ")"
                  end)
                 ("," +:+ nl))
              (value' :: next)).
    rewrite IH. unfold monitor_printf at 1. rewrite monitor_text_app.
    rewrite print_desc_text.
    change (String.concat ("," +:+ nl) (map desc_text (value :: value' :: next)))
      with (desc_text value +:+ ("," +:+ nl)
            +:+ String.concat ("," +:+ nl) (map desc_text (value' :: next))).
    rewrite ?append_assoc. reflexivity.
Qed.

(** X11: the descriptors of a queue element are printed as their
    texts joined by [",\n"], and the flags of a descriptor as the flag
    names joined by [", "] between parentheses; a descriptor without
    flags has no parentheses, and an element without descriptors gives
    no text. *)
Theorem print_descs_joined (l : list VirtioRingDesc) (flag : list string) :
  monitor_text (print_descs [] l)
  = String.concat ("," +:+ nl) (map desc_text l)
  /\ monitor_text (print_desc_flags [] flag) = String.concat ", " flag.
Proof.
  split.
  - apply (print_descs_text [] l).
  - apply (print_desc_flags_text [] flag).
Qed.

(** ** Lists of records: virtio devices, TPM devices, IO threads *)

Lemma print_virtio_nodes_lines (mon : Monitor) (node : list VirtioInfo) :
  print_virtio_nodes mon node = mon ++ map virtio_node_line node.
Proof.
  revert mon; induction node as [|value next IH]; intros mon; simpl.
  - by rewrite app_nil_r.
  - rewrite IH. unfold monitor_printf. by rewrite <- app_assoc.
Qed.

(** X12: [info virtio] answers a list of devices with one line per
    device, "<path> [<name>]", in the order of the list and with
    nothing before, between or after the lines; it answers the empty
    list with the one line "No VirtIO devices"; in both cases no error
    descriptor is touched. *)
Theorem hmp_virtio_query_lines (l : list VirtioInfo) (w : World) :
  hmp_virtio_query (Ok l) w
  = {| sink := sink w
               ++ match l with
                  | [] => ["No VirtIO devices" +:+ nl]
                  | _ :: _ => map virtio_node_line l
                  end;
       released := released w |}.
Proof.
  unfold hmp_virtio_query. destruct l as [|value next]; [reflexivity|].
  unfold with_sink. by rewrite print_virtio_nodes_lines.
Qed.

Section TpmList.
Variable TpmModel_str : TpmModel -> string.
Variable TpmType_str : TpmType -> string.

Lemma print_tpm_list_frame (mon : Monitor) (ti : TPMInfo) (c : Z) :
  print_tpm_list TpmModel_str TpmType_str mon [ti] c
  = mon ++ print_tpm_list TpmModel_str TpmType_str [] [ti] c.
Proof.
  simpl. unfold monitor_printf.
  destruct (tpm_options ti); simpl; by rewrite <- ?app_assoc.
Qed.

Lemma print_tpm_list_blocks (mon : Monitor) (info : list TPMInfo) (c : Z) :
  print_tpm_list TpmModel_str TpmType_str mon info c
  = mon ++ concat (imap (fun k ti =>
                           print_tpm_list TpmModel_str TpmType_str [] [ti]
                             (c + Z.of_nat k)) info).
Proof.
  revert mon c; induction info as [|ti next IH]; intros mon c.
  - simpl. by rewrite app_nil_r.
  - change (print_tpm_list TpmModel_str TpmType_str mon (ti :: next) c)
      with (print_tpm_list TpmModel_str TpmType_str
              (print_tpm_list TpmModel_str TpmType_str mon [ti] c)
              next (c + 1)).
    rewrite IH, print_tpm_list_frame, <- app_assoc. simpl imap. simpl concat.
    rewrite Z.add_0_r. do 3 f_equal.
    apply imap_ext. intros k v _.
    change (print_tpm_list TpmModel_str TpmType_str [] [v]
              (c + 1 + Z.of_nat k)
            = print_tpm_list TpmModel_str TpmType_str [] [v]
                (c + Z.of_nat (S k))).
    f_equal. lia.
Qed.
End TpmList.

(** X13: [info tpm] numbers the devices from 0 in the order of the
    list: what it prints for a list is the line "TPM device:" followed
    by what it prints for each device alone under the numbers 0, 1, 2
    and so on, each block opening with " tpm<number>: model=<model>".
    For the empty list it prints nothing, and built without TPM
    support it prints "TPM device not supported" whatever the query
    would answer. *)
Theorem hmp_info_tpm_numbering (TpmModel_str : TpmModel -> string)
    (TpmType_str : TpmType -> string) (w : World) :
  (forall info_list : list TPMInfo,
     hmp_info_tpm true (Ok info_list) TpmModel_str TpmType_str w
     = {| sink := sink w
                  ++ match info_list with
                     | [] => []
                     | _ :: _ => ["TPM device:" +:+ nl]
                     end
                  ++ concat (imap (fun k ti =>
                                     print_tpm_list TpmModel_str TpmType_str
                                       [] [ti] (Z.of_nat k)) info_list);
          released := released w |})
  /\ (forall (ti : TPMInfo) (c : Z),
        exists rest : list string,
          print_tpm_list TpmModel_str TpmType_str [] [ti] c
          = (" tpm" +:+ fmt_d c +:+ ": model="
             +:+ TpmModel_str (tpm_model ti) +:+ nl) :: rest)
  /\ (forall reply : reply (list TPMInfo),
        hmp_info_tpm false reply TpmModel_str TpmType_str w
        = {| sink := sink w ++ ["TPM device not supported" +:+ nl];
             released := released w |}).
Proof.
  split; [|split].
  - intros info_list. unfold hmp_info_tpm, with_sink, say.
    destruct info_list as [|ti next]; simpl sink; simpl released.
    + simpl. by rewrite app_nil_r.
    + rewrite print_tpm_list_blocks. unfold with_sink, monitor_printf.
      simpl sink. by rewrite <- app_assoc.
  - intros ti c. simpl. unfold monitor_printf.
    destruct (tpm_options ti); simpl; by eexists.
  - by intros reply.
Qed.

Lemma print_iothreads_frame (mon : Monitor) (value : IOThreadInfo) :
  print_iothreads mon [value] = mon ++ print_iothreads [] [value].
Proof. simpl. unfold monitor_printf. by rewrite <- !app_assoc. Qed.

Lemma print_iothreads_blocks (mon : Monitor) (info : list IOThreadInfo) :
  print_iothreads mon info
  = mon ++ concat (map (fun value => print_iothreads [] [value]) info).
Proof.
  revert mon; induction info as [|value next IH]; intros mon.
  - simpl. by rewrite app_nil_r.
  - change (print_iothreads mon (value :: next))
      with (print_iothreads (print_iothreads mon [value]) next).
    rewrite IH, print_iothreads_frame, <- app_assoc. reflexivity.
Qed.

Lemma iothread_blocks_length (info : list IOThreadInfo) :
  length (concat (map (fun value => print_iothreads [] [value]) info))
  = 6 * length info.
Proof.
  induction info as [|value next IH]; [reflexivity|].
  change (concat (map (fun value => print_iothreads [] [value])
                    (value :: next)))
    with (print_iothreads [] [value]
          ++ concat (map (fun value => print_iothreads [] [value]) next)).
  rewrite length_app, IH.
  change (length (print_iothreads [] [value])) with 6.
  rewrite length_cons. lia.
Qed.

Lemma iothread_blocks_lookup (info : list IOThreadInfo) (k : nat)
    (value : IOThreadInfo) :
  info !! k = Some value ->
  concat (map (fun value => print_iothreads [] [value]) info) !! (6 * k)
  = Some (iothread_id value +:+ ":" +:+ nl).
Proof.
  revert k; induction info as [|first next IH]; intros k Hk; [done|].
  destruct k as [|k].
  - simpl in Hk. injection Hk as ->. reflexivity.
  - change (concat (map (fun value => print_iothreads [] [value])
                      (first :: next)))
      with (print_iothreads [] [first]
            ++ concat (map (fun value => print_iothreads [] [value]) next)).
    rewrite lookup_app_r
      by (change (length (print_iothreads [] [first])) with 6; lia).
    change (length (print_iothreads [] [first])) with 6.
    replace (6 * S k - 6) with (6 * k) by lia.
    apply IH. exact Hk.
Qed.

(** X14: [info iothreads] prints six lines for every IO thread, in the
    order of the list and with nothing between the blocks: the block of
    the k-th thread (counting from 0) starts at write 6k with the line
    "<id>:", and a list of n threads gives 6n lines. *)
Theorem hmp_info_iothreads_blocks (info_list : list IOThreadInfo) (w : World) :
  hmp_info_iothreads info_list w
  = {| sink := sink w
               ++ concat (map (fun value => print_iothreads [] [value])
                            info_list);
       released := released w |}
  /\ length (sink (hmp_info_iothreads info_list w))
     = length (sink w) + 6 * length info_list
  /\ (forall (k : nat) (value : IOThreadInfo),
        info_list !! k = Some value ->
        sink (hmp_info_iothreads info_list w) !! (length (sink w) + 6 * k)
        = Some (iothread_id value +:+ ":" +:+ nl)).
Proof.
  assert (Hblocks :
    hmp_info_iothreads info_list w
    = {| sink := sink w
                 ++ concat (map (fun value => print_iothreads [] [value])
                              info_list);
         released := released w |}).
  { unfold hmp_info_iothreads, with_sink. by rewrite print_iothreads_blocks. }
  split; [exact Hblocks|]. rewrite Hblocks. clear Hblocks.
  pose proof (iothread_blocks_length info_list) as Hlen.
  pose proof (iothread_blocks_lookup info_list) as Hlookup.
  set (blocks := concat (map (fun value => print_iothreads [] [value])
                           info_list)) in *.
  cbn [sink]. split.
  - by rewrite length_app, Hlen.
  - intros k value Hk.
    etrans; [apply (lookup_app_r (sink w) blocks); lia|].
    replace (length (sink w) + 6 * k - length (sink w)) with (6 * k) by lia.
    by apply Hlookup.
Qed.

(** ** info stats from end to end *)

Section InfoStatsRuns.
Variable STATS_PROVIDER__MAX : nat.
Variable StatsType_str : StatsType -> string.
Variable StatsUnit_str : StatsUnit -> string.
Variable StatsProvider_str : StatsProvider -> string.
Variable si_prefix : Z -> string.
Variable iec_binary_prefix : Z -> string.
Variable StatsTarget_parse : string -> reply StatsTarget.
Variable StatsProvider_parse : string -> reply StatsProvider.
Variable qmp_query_stats_schemas :
  bool -> StatsProvider -> reply (list StatsSchema).

Lemma print_entries_renders (mon : Monitor) (target : StatsTarget)
    (show_provider : bool) (stats : list StatsResult)
    (schema : list StatsSchema) :
  Forall (within_schema schema target) stats ->
  print_entries StatsType_str StatsUnit_str StatsProvider_str si_prefix
    iec_binary_prefix mon target show_provider stats schema
  = Some (fold_left
            (fun mon result =>
               fst (print_stats_results StatsType_str StatsUnit_str
                      StatsProvider_str si_prefix iec_binary_prefix mon target
                      show_provider result schema))
            stats mon).
Proof.
  intros Hall. revert mon.
  induction Hall as [|result next Hresult _ IH]; intros mon; [reflexivity|].
  simpl.
  destruct (print_stats_results_exit StatsType_str StatsUnit_str
              StatsProvider_str si_prefix iec_binary_prefix mon target
              show_provider result schema Hresult) as [Hexit|Hexit];
    destruct (print_stats_results _ _ _ _ _ mon target show_provider result
                schema) as [mon' e];
    simpl in Hexit; subst e; apply IH.
Qed.

Lemma stats_filter_vm (cpus cpus' : list CPUState) (names : option string)
    (index index' : Z) (provider : StatsProvider) :
  stats_filter STATS_PROVIDER__MAX cpus STATS_TARGET_VM names index provider
  = stats_filter STATS_PROVIDER__MAX cpus' STATS_TARGET_VM names index'
      provider.
Proof. reflexivity. Qed.
End InfoStatsRuns.

(** X15: when both queries succeed and the stats of every result are
    within the schema, [info stats] returns, frees no error descriptor,
    and leaves on the sink the renderings of the results one after the
    other in the order of the answer, each with the provider line
    exactly when no provider was named on the command line. *)
Theorem hmp_info_stats_renders (STATS_PROVIDER__MAX : nat)
    (cpus : list CPUState)
    (StatsType_str : StatsType -> string) (StatsUnit_str : StatsUnit -> string)
    (StatsProvider_str : StatsProvider -> string)
    (si_prefix iec_binary_prefix : Z -> string)
    (StatsTarget_parse : string -> reply StatsTarget)
    (StatsProvider_parse : string -> reply StatsProvider)
    (qmp_query_stats_schemas :
       bool -> StatsProvider -> reply (list StatsSchema))
    (qmp_query_stats : StatsFilter -> reply (list StatsResult))
    (monitor_get_cpu_index : Z)
    (target_str : string) (provider_str names : option string)
    (target : StatsTarget) (provider : StatsProvider)
    (schema : list StatsSchema) (stats : list StatsResult) (w : World) :
  StatsTarget_parse target_str = Ok target ->
  target <> STATS_TARGET__MAX ->
  match provider_str with
  | Some str => StatsProvider_parse str
  | None => Ok STATS_PROVIDER__MAX
  end = Ok provider ->
  qmp_query_stats_schemas (bool_decide (is_Some provider_str)) provider
  = Ok schema ->
  qmp_query_stats
    (stats_filter STATS_PROVIDER__MAX cpus target names
       (match target with
        | STATS_TARGET_VM => (-1)%Z
        | _ => monitor_get_cpu_index
        end)
       provider)
  = Ok stats ->
  Forall (within_schema schema target) stats ->
  hmp_info_stats STATS_PROVIDER__MAX cpus StatsType_str StatsUnit_str
    StatsProvider_str si_prefix iec_binary_prefix StatsTarget_parse
    StatsProvider_parse qmp_query_stats_schemas qmp_query_stats
    monitor_get_cpu_index target_str provider_str names w
  = Some
      {| sink :=
           fold_left
             (fun mon result =>
                fst (print_stats_results StatsType_str StatsUnit_str
                       StatsProvider_str si_prefix iec_binary_prefix mon
                       target
                       (match provider_str with
                        | Some _ => false
                        | None => true
                        end)
                       result schema))
             stats (sink w);
         released := released w |}.
Proof.
  intros Ht Hmax Hp Hs Hq Hall. unfold hmp_info_stats.
  rewrite Ht, Hp, Hs.
  assert (Hshow : negb (bool_decide (is_Some provider_str))
                  = match provider_str with
                    | Some _ => false
                    | None => true
                    end).
  { destruct provider_str; [|done].
    by rewrite bool_decide_eq_true_2 by (by eexists). }
  destruct target; [| |done]; rewrite Hq, Hshow;
    by rewrite (print_entries_renders _ _ _ _ _ _ _ _ _ _ Hall).
Qed.

Lemma hmp_info_stats_renders_witness :
  let schema :=
    [ {| schema_provider := 0; schema_target := STATS_TARGET_VM;
         schema_stats :=
           [ {| ssv_name := "exits"; ssv_type := STATS_TYPE_CUMULATIVE;
                has_unit := false; ssv_unit := STATS_UNIT_BYTES;
                base := 0; exponent := 0;
                has_bucket_size := false; bucket_size := 0 |} ] |} ] in
  let stats :=
    [ {| result_provider := 0;
         result_stats :=
           [ {| stats_name := "exits"; stats_value := QTYPE_QNUM 12345 |} ] |} ]
  in
  hmp_info_stats 1 [] StatsType_qapi_name StatsUnit_qapi_name
    (fun _ => "kvm") si_prefix_table iec_binary_prefix_table
    (fun _ => Ok STATS_TARGET_VM) (fun _ => Ok 0)
    (fun _ _ => Ok schema) (fun _ => Ok stats) 0
    "vm" (Some "kvm") (Some "exits") world0
  = Some {| sink := ["    exits (cumulative"; ")"; ": 12345" +:+ nl];
            released := [] |}.
Proof.
  intros schema stats.
  apply (hmp_info_stats_renders 1 [] StatsType_qapi_name StatsUnit_qapi_name
           (fun _ => "kvm") si_prefix_table iec_binary_prefix_table
           (fun _ => Ok STATS_TARGET_VM) (fun _ => Ok 0)
           (fun _ _ => Ok schema) (fun _ => Ok stats) 0
           "vm" (Some "kvm") (Some "exits") STATS_TARGET_VM 0 schema stats
           world0);
    try reflexivity; [discriminate|].
  constructor; [|constructor]. unfold within_schema. simpl.
  apply sublist_skip, sublist_nil.
Defined.

(** X16: a target or a provider that the enumeration does not know is
    answered with one line, "invalid stats target" or "invalid stats
    provider" followed by the word as it was typed; the text of the
    parse error is not shown, its descriptor is freed, and the outcome
    is the same whatever the MAPI queries would have answered. *)
Theorem hmp_info_stats_invalid_argument (STATS_PROVIDER__MAX : nat)
    (cpus : list CPUState)
    (StatsType_str : StatsType -> string) (StatsUnit_str : StatsUnit -> string)
    (StatsProvider_str : StatsProvider -> string)
    (si_prefix iec_binary_prefix : Z -> string)
    (StatsTarget_parse : string -> reply StatsTarget)
    (StatsProvider_parse : string -> reply StatsProvider)
    (qmp_query_stats_schemas :
       bool -> StatsProvider -> reply (list StatsSchema))
    (qmp_query_stats : StatsFilter -> reply (list StatsResult))
    (monitor_get_cpu_index : Z)
    (target_str : string) (provider_str names : option string)
    (err : Error) (w : World) :
  (StatsTarget_parse target_str = Fail err ->
   hmp_info_stats STATS_PROVIDER__MAX cpus StatsType_str StatsUnit_str
     StatsProvider_str si_prefix iec_binary_prefix StatsTarget_parse
     StatsProvider_parse qmp_query_stats_schemas qmp_query_stats
     monitor_get_cpu_index target_str provider_str names w
   = Some {| sink := sink w ++ ["invalid stats target " +:+ target_str +:+ nl];
             released := released w ++ [err] |})
  /\ (forall (target : StatsTarget) (str : string),
        StatsTarget_parse target_str = Ok target ->
        provider_str = Some str ->
        StatsProvider_parse str = Fail err ->
        hmp_info_stats STATS_PROVIDER__MAX cpus StatsType_str StatsUnit_str
          StatsProvider_str si_prefix iec_binary_prefix StatsTarget_parse
          StatsProvider_parse qmp_query_stats_schemas qmp_query_stats
          monitor_get_cpu_index target_str provider_str names w
        = Some {| sink := sink w ++ ["invalid stats provider " +:+ str +:+ nl];
                  released := released w ++ [err] |}).
Proof.
  split.
  - intros Ht. unfold hmp_info_stats. by rewrite Ht.
  - intros target str Ht -> Hp. unfold hmp_info_stats. by rewrite Ht, Hp.
Qed.

Lemma hmp_info_stats_invalid_argument_witness :
  hmp_info_stats 1 [] StatsType_qapi_name StatsUnit_qapi_name
    (fun _ => "kvm") si_prefix_table iec_binary_prefix_table
    (fun _ => Fail {| error_get_pretty := "Parameter 'target' does not accept value 'disk'" |})
    (fun _ => Ok 0) (fun _ _ => Ok []) (fun _ => Ok []) 0
    "disk" None None world0
  = Some {| sink := ["invalid stats target disk" +:+ nl];
            released :=
              [ {| error_get_pretty :=
                     "Parameter 'target' does not accept value 'disk'" |} ] |}.
Proof.
  apply (proj1 (hmp_info_stats_invalid_argument 1 [] StatsType_qapi_name
                  StatsUnit_qapi_name (fun _ => "kvm") si_prefix_table
                  iec_binary_prefix_table
                  (fun _ => Fail {| error_get_pretty :=
                     "Parameter 'target' does not accept value 'disk'" |})
                  (fun _ => Ok 0) (fun _ _ => Ok []) (fun _ => Ok []) 0
                  "disk" None None
                  {| error_get_pretty :=
                       "Parameter 'target' does not accept value 'disk'" |}
                  world0)).
  reflexivity.
Defined.

(** X17: [info stats] asks the stats query with the filter built from
    the target, the names and the provider of the command line, and
    nothing else of the query's answers matters to it.  For the target
    VM the CPU index it passes is -1 and is not looked at: the outcome
    is the same whichever CPUs the machine has and whichever the
    session has selected; for any other target the index is that of
    the CPU the session has selected. *)
Theorem hmp_info_stats_filter (STATS_PROVIDER__MAX : nat)
    (StatsType_str : StatsType -> string) (StatsUnit_str : StatsUnit -> string)
    (StatsProvider_str : StatsProvider -> string)
    (si_prefix iec_binary_prefix : Z -> string)
    (StatsTarget_parse : string -> reply StatsTarget)
    (StatsProvider_parse : string -> reply StatsProvider)
    (qmp_query_stats_schemas :
       bool -> StatsProvider -> reply (list StatsSchema))
    (target_str : string) (provider_str names : option string)
    (target : StatsTarget) (provider : StatsProvider) (w : World) :
  StatsTarget_parse target_str = Ok target ->
  match provider_str with
  | Some str => StatsProvider_parse str
  | None => Ok STATS_PROVIDER__MAX
  end = Ok provider ->
  (forall (cpus : list CPUState) (index : Z)
          (query query' : StatsFilter -> reply (list StatsResult)),
     query (stats_filter STATS_PROVIDER__MAX cpus target names
              (match target with
               | STATS_TARGET_VM => (-1)%Z
               | _ => index
               end) provider)
     = query' (stats_filter STATS_PROVIDER__MAX cpus target names
                 (match target with
                  | STATS_TARGET_VM => (-1)%Z
                  | _ => index
                  end) provider) ->
     hmp_info_stats STATS_PROVIDER__MAX cpus StatsType_str StatsUnit_str
       StatsProvider_str si_prefix iec_binary_prefix StatsTarget_parse
       StatsProvider_parse qmp_query_stats_schemas query index
       target_str provider_str names w
     = hmp_info_stats STATS_PROVIDER__MAX cpus StatsType_str StatsUnit_str
         StatsProvider_str si_prefix iec_binary_prefix StatsTarget_parse
         StatsProvider_parse qmp_query_stats_schemas query' index
         target_str provider_str names w)
  /\ (target = STATS_TARGET_VM ->
      forall (cpus cpus' : list CPUState) (index index' : Z)
             (query : StatsFilter -> reply (list StatsResult)),
        hmp_info_stats STATS_PROVIDER__MAX cpus StatsType_str StatsUnit_str
          StatsProvider_str si_prefix iec_binary_prefix StatsTarget_parse
          StatsProvider_parse qmp_query_stats_schemas query index
          target_str provider_str names w
        = hmp_info_stats STATS_PROVIDER__MAX cpus' StatsType_str StatsUnit_str
            StatsProvider_str si_prefix iec_binary_prefix StatsTarget_parse
            StatsProvider_parse qmp_query_stats_schemas query index'
            target_str provider_str names w).
Proof.
  intros Ht Hp. split.
  - intros cpus index query query' Hsame. unfold hmp_info_stats.
    rewrite Ht, Hp.
    destruct (qmp_query_stats_schemas _ provider) as [schema|err];
      [|reflexivity].
    destruct target; [| |reflexivity]; by rewrite Hsame.
  - intros -> cpus cpus' index index' query. unfold hmp_info_stats.
    rewrite Ht, Hp.
    by rewrite (stats_filter_vm STATS_PROVIDER__MAX cpus cpus' names (-1) (-1)).
Qed.

Lemma hmp_info_stats_filter_witness :
  let run (cpus : list CPUState) (index : Z) :=
    hmp_info_stats 1 cpus StatsType_qapi_name StatsUnit_qapi_name
      (fun _ => "kvm") si_prefix_table iec_binary_prefix_table
      (fun _ => Ok STATS_TARGET_VM) (fun _ => Ok 0)
      (fun _ _ => Ok []) (fun _ => Ok []) index
      "vm" None None world0 in
  run [] 0%Z
  = run [ {| cpu_index := 3;
             canonical_path := "/machine/unattached/device[3]" |} ] 3%Z.
Proof.
  intros run.
  apply (proj2
           (hmp_info_stats_filter 1 StatsType_qapi_name StatsUnit_qapi_name
              (fun _ => "kvm") si_prefix_table iec_binary_prefix_table
              (fun _ => Ok STATS_TARGET_VM) (fun _ => Ok 0)
              (fun _ _ => Ok []) "vm" None None STATS_TARGET_VM 1 world0
              eq_refl eq_refl) eq_refl).
Defined.

(** ** sync-profile and change *)

(** X18: [sync-profile] compares its operand with "on", "off" and
    "reset" letter for letter.  One of the three calls the matching
    entry point of the profiler and prints nothing; any other word
    leaves the profiler as it is and is answered through the error
    relay with one line, "Error: " and the invalid-parameter message
    for the word, the descriptor being freed; with no operand the
    state is printed and not changed. *)
Theorem hmp_sync_profile_dispatch (Qsp : Type) (qsp_is_enabled : Qsp -> bool)
    (qsp_enable qsp_disable qsp_reset : Qsp -> Qsp)
    (QERR_INVALID_PARAMETER : string -> string) (q : Qsp) (w : World) :
  hmp_sync_profile Qsp qsp_is_enabled qsp_enable qsp_disable qsp_reset
    QERR_INVALID_PARAMETER (Some "on") q w = (qsp_enable q, w)
  /\ hmp_sync_profile Qsp qsp_is_enabled qsp_enable qsp_disable qsp_reset
       QERR_INVALID_PARAMETER (Some "off") q w = (qsp_disable q, w)
  /\ hmp_sync_profile Qsp qsp_is_enabled qsp_enable qsp_disable qsp_reset
       QERR_INVALID_PARAMETER (Some "reset") q w = (qsp_reset q, w)
  /\ (forall op : string,
        op <> "on" -> op <> "off" -> op <> "reset" ->
        hmp_sync_profile Qsp qsp_is_enabled qsp_enable qsp_disable qsp_reset
          QERR_INVALID_PARAMETER (Some op) q w
        = (q,
           {| sink := sink w
                      ++ ["Error: " +:+ QERR_INVALID_PARAMETER op +:+ nl];
              released :=
                released w
                ++ [ {| error_get_pretty := QERR_INVALID_PARAMETER op |} ] |}))
  /\ hmp_sync_profile Qsp qsp_is_enabled qsp_enable qsp_disable qsp_reset
       QERR_INVALID_PARAMETER None q w
     = (q,
        {| sink := sink w
                   ++ [ "sync-profile is "
                        +:+ (if qsp_is_enabled q then "on" else "off") +:+ nl ];
           released := released w |}).
Proof.
  repeat split.
  intros op Hon Hoff Hreset. unfold hmp_sync_profile.
  by rewrite (proj2 (String.eqb_neq _ _) Hon),
     (proj2 (String.eqb_neq _ _) Hoff), (proj2 (String.eqb_neq _ _) Hreset).
Qed.

Lemma hmp_sync_profile_dispatch_witness :
  hmp_sync_profile bool (fun q => q) (fun _ => true) (fun _ => false)
    (fun q => q) (fun op => "Invalid parameter '" +:+ op +:+ "'")
    (Some "ON") false world0
  = (false,
     {| sink := ["Error: Invalid parameter 'ON'" +:+ nl];
        released := [ {| error_get_pretty := "Invalid parameter 'ON'" |} ] |}).
Proof.
  apply (proj1 (proj2 (proj2 (proj2
           (hmp_sync_profile_dispatch bool (fun q => q) (fun _ => true)
              (fun _ => false) (fun q => q)
              (fun op => "Invalid parameter '" +:+ op +:+ "'")
              false world0)))) "ON");
    discriminate.
Defined.

(** X19: [change] hands the work to the VNC handler only when VNC
    support is built in and the device is spelled "vnc" exactly; in
    every other case, a build without VNC support and the device "vnc"
    included, it is the medium handler that runs.  Whichever handler
    ran, the error it leaves goes through the error relay, and without
    an error the state is as the handler left it. *)
Theorem hmp_change_dispatch (CONFIG_VNC : bool)
    (hmp_change_vnc hmp_change_medium :
       string -> string -> option string -> option string -> bool ->
       World -> World * option Error)
    (device target : string) (arg read_only : option string) (force : bool)
    (w : World) :
  (CONFIG_VNC = true -> device = "vnc" ->
   hmp_change CONFIG_VNC hmp_change_vnc hmp_change_medium
     device target arg read_only force w
   = snd (hmp_handle_error
            (snd (hmp_change_vnc device target arg read_only force w))
            (fst (hmp_change_vnc device target arg read_only force w))))
  /\ (CONFIG_VNC = false \/ device <> "vnc" ->
      hmp_change CONFIG_VNC hmp_change_vnc hmp_change_medium
        device target arg read_only force w
      = snd (hmp_handle_error
               (snd (hmp_change_medium device target arg read_only force w))
               (fst (hmp_change_medium device target arg read_only force w))))
  /\ (forall (handled : World) (err : option Error),
        snd (hmp_handle_error err handled)
        = match err with
          | Some e =>
            {| sink := sink handled
                       ++ ["Error: " +:+ error_get_pretty e +:+ nl];
               released := released handled ++ [e] |}
          | None => handled
          end).
Proof.
  split; [|split].
  - intros -> ->. unfold hmp_change. simpl.
    by destruct (hmp_change_vnc _ _ _ _ _ _).
  - intros Hmedium. unfold hmp_change.
    assert (CONFIG_VNC && String.eqb device "vnc" = false) as ->.
    { destruct Hmedium as [-> | Hdev]; [done|].
      rewrite (proj2 (String.eqb_neq _ _) Hdev). apply andb_false_r. }
    by destruct (hmp_change_medium _ _ _ _ _ _).
  - by intros handled [e|].
Qed.

Lemma hmp_change_dispatch_witness :
  hmp_change false
    (fun _ _ _ _ _ w => (say "vnc" w, None))
    (fun _ _ _ _ _ w =>
       (w, Some {| error_get_pretty := "Cannot find device='vnc'" |}))
    "vnc" "passwd" None None false world0
  = {| sink := ["Error: Cannot find device='vnc'" +:+ nl];
       released := [ {| error_get_pretty := "Cannot find device='vnc'" |} ] |}.
Proof.
  apply (proj1 (proj2
           (hmp_change_dispatch false
              (fun _ _ _ _ _ w => (say "vnc" w, None))
              (fun _ _ _ _ _ w =>
                 (w, Some {| error_get_pretty := "Cannot find device='vnc'" |}))
              "vnc" "passwd" None None false world0))).
  by left.
Defined.

(** ** Looking up the schema of a result *)

(** X20: the value list used for a result is that of the first schema
    in the list for the provider and target; schemas after it are not
    looked at.  When no schema is for the pair, and also when the
    first that is has no values, the renderer writes "failed to find
    schema list for" and the provider, and neither the provider line
    nor any stat. *)
Theorem find_schema_value_list_first
    (StatsType_str : StatsType -> string) (StatsUnit_str : StatsUnit -> string)
    (StatsProvider_str : StatsProvider -> string)
    (si_prefix iec_binary_prefix : Z -> string)
    (provider : StatsProvider) (target : StatsTarget) :
  (forall (before : list StatsSchema) (node : StatsSchema)
          (behind : list StatsSchema),
     Forall (fun n => ~ (schema_provider n = provider
                         /\ schema_target n = target)) before ->
     schema_provider node = provider -> schema_target node = target ->
     find_schema_value_list (before ++ node :: behind) provider target
     = schema_stats node)
  /\ (forall schema : list StatsSchema,
        Forall (fun n => ~ (schema_provider n = provider
                            /\ schema_target n = target)) schema ->
        find_schema_value_list schema provider target = [])
  /\ (forall (mon : Monitor) (show_provider : bool) (result : StatsResult)
             (schema : list StatsSchema),
        result_provider result = provider ->
        find_schema_value_list schema provider target = [] ->
        print_stats_results StatsType_str StatsUnit_str StatsProvider_str
          si_prefix iec_binary_prefix mon target show_provider result schema
        = (mon ++ [ "failed to find schema list for "
                    +:+ StatsProvider_str provider +:+ nl ],
           NoSchemaList)).
Proof.
  assert (Hskip : forall n : StatsSchema,
            ~ (schema_provider n = provider /\ schema_target n = target) ->
            (schema_provider n =? provider)%nat
            && bool_decide (schema_target n = target) = false).
  { intros n Hn. destruct (Nat.eqb_spec (schema_provider n) provider);
      [|reflexivity].
    rewrite bool_decide_eq_false_2; [reflexivity|tauto]. }
  split; [|split].
  - intros before node behind Hbefore Hp Ht.
    induction Hbefore as [|n before Hn _ IH]; simpl.
    + by rewrite Hp, Ht, Nat.eqb_refl, bool_decide_eq_true_2.
    + by rewrite (Hskip n Hn).
  - intros schema Hnone.
    induction Hnone as [|n schema Hn _ IH]; simpl; [reflexivity|].
    by rewrite (Hskip n Hn).
  - intros mon show_provider result schema Hp Hlist.
    unfold print_stats_results. by rewrite Hp, Hlist.
Qed.

Lemma find_schema_value_list_first_witness :
  print_stats_results StatsType_qapi_name StatsUnit_qapi_name
    (fun _ => "kvm") si_prefix_table iec_binary_prefix_table
    [] STATS_TARGET_VCPU true
    {| result_provider := 0;
       result_stats :=
         [ {| stats_name := "exits"; stats_value := QTYPE_QNUM 1 |} ] |}
    [ {| schema_provider := 0; schema_target := STATS_TARGET_VCPU;
         schema_stats := [] |} ]
  = (["failed to find schema list for kvm" +:+ nl], NoSchemaList).
Proof.
  apply (proj2 (proj2
           (find_schema_value_list_first StatsType_qapi_name
              StatsUnit_qapi_name (fun _ => "kvm") si_prefix_table
              iec_binary_prefix_table 0 STATS_TARGET_VCPU))
           [] true
           {| result_provider := 0;
              result_stats :=
                [ {| stats_name := "exits"; stats_value := QTYPE_QNUM 1 |} ] |});
    reflexivity.
Defined.
